(** * simulationOfLife: the simulation engine of [src/main.c]

    A shallow embedding of the C program: the two boards of
    [struct gameOfLife_t], the rule engine [ApplyLifeRule], the generation
    step [UpdateBoard], the seeding of the board, the key and mouse handlers
    and the body of [SimulationLoop].

    What the model keeps and what it leaves out:
    - a C computation returns, ends the process through [exit], or is
      undefined (an array index out of range, a division by zero);
    - [int] values stay far from the bounds of the type (indices below
      [BOARD_SIDE * BOARD_SIDE], counts up to 9) and are integers; the
      [uint8_t] tick rate wraps modulo 256;
    - the values the C library's [random] returns and the events
      [SDL_PollEvent] delivers are inputs;
    - the SDL drawing calls read the boards and the colours and write to the
      renderer only, and the program never reads what it prints: neither is
      part of the state.  The arguments of [SDL_Delay] are recorded;
    - the calls on the renderer are modelled apart from the state of a run:
      [UpdateBoard_frame] is [UpdateBoard] together with the frame it draws,
      and [InitializeGraphics] with [Abort] is the start-up, the answers of
      SDL being inputs. *)

From Stdlib Require Import ZArith Lia Bool Ascii.
From stdpp Require Import base tactics option list strings.

Local Open Scope Z_scope.

(** * Part 1: the program *)

(** ** Outcomes of a C computation *)

(** What the C standard leaves undefined and this program can run into. *)
Inductive fault : Type :=
  | OutOfBounds
  | DivisionByZero.

(** A computation returns, ends the process through [exit], or is undefined. *)
Inductive outcome (A : Type) : Type :=
  | Ok (a : A)
  | Exited (status : Z)
  | Faulted (f : fault).

Arguments Ok {A} a.
Arguments Exited {A} status.
Arguments Faulted {A} f.

#[global] Instance outcome_ret : MRet outcome := fun _ a => Ok a.

#[global] Instance outcome_bind : MBind outcome := fun _ _ k m =>
  match m with
  | Ok a => k a
  | Exited status => Exited status
  | Faulted f => Faulted f
  end.

(** The value of a computation that returned, [d] for the others. *)
Definition returned {A} (d : A) (m : outcome A) : A :=
  match m with Ok a => a | _ => d end.

(** [for ( i = lo; i < hi; i++ ) body]: the body runs [hi - lo] times (not at
    all when [hi <= lo]); a pass that does not return ends the loop. *)
Fixpoint for_range {S : Type} (n : nat) (i : Z) (body : Z -> S -> outcome S)
    (s : S) : outcome S :=
  match n with
  | O => Ok s
  | Datatypes.S n' => s' ← body i s; for_range n' (i + 1) body s'
  end.

Definition for_loop {S : Type} (lo hi : Z) (body : Z -> S -> outcome S)
    (s : S) : outcome S :=
  for_range (Z.to_nat (hi - lo)) lo body s.

(** ** Constants and data *)

Definition DEFAULT_DELTA_TIME : Z := 60.
Definition BOARD_SIDE : Z := 200.
Definition PIXEL_SIZE : Z := 5.

(** Conversion to [uint8_t]. *)
Definition to_uint8 (x : Z) : Z := x mod 256.

(** [uint8_t board[BOARD_SIDE][BOARD_SIDE]]: a list of rows of cells. *)
Abbreviation Board := (list (list Z)).

Record gameOfLife_t : Type := mkGameOfLife {
  deltaTime : Z;
  simulationPaused : bool;
  board : Board;      (* the board to display *)
  workBoard : Board   (* the working board *)
}.

Record SDL_Color : Type := mkColor { r : Z; g : Z; b : Z; a : Z }.

Definition set_workBoard (gol : gameOfLife_t) (wb : Board) : gameOfLife_t :=
  mkGameOfLife (deltaTime gol) (simulationPaused gol) (board gol) wb.

Definition set_board (gol : gameOfLife_t) (bd : Board) : gameOfLife_t :=
  mkGameOfLife (deltaTime gol) (simulationPaused gol) bd (workBoard gol).

Definition set_deltaTime (gol : gameOfLife_t) (d : Z) : gameOfLife_t :=
  mkGameOfLife d (simulationPaused gol) (board gol) (workBoard gol).

Definition set_simulationPaused (gol : gameOfLife_t) (p : bool) : gameOfLife_t :=
  mkGameOfLife (deltaTime gol) p (board gol) (workBoard gol).

(** ** Boards *)

(** [board[row][col]] read: an index outside the array is undefined. *)
Definition load (bd : Board) (row col : Z) : outcome Z :=
  if (0 <=? row) && (0 <=? col) then
    match bd !! Z.to_nat row ≫= (.!! Z.to_nat col) with
    | Some v => Ok v
    | None => Faulted OutOfBounds
    end
  else Faulted OutOfBounds.

(** The board with [v] at [row], [col]. *)
Definition board_upd (bd : Board) (row col v : Z) : Board :=
  alter (<[Z.to_nat col := v]>) (Z.to_nat row) bd.

(** [board[row][col] = v]. *)
Definition store (bd : Board) (row col v : Z) : outcome Board :=
  if (0 <=? row) && (0 <=? col) then
    match bd !! Z.to_nat row ≫= (.!! Z.to_nat col) with
    | Some _ => Ok (board_upd bd row col v)
    | None => Faulted OutOfBounds
    end
  else Faulted OutOfBounds.

(** A zeroed board. *)
Definition zero_board : Board :=
  replicate (Z.to_nat BOARD_SIDE) (replicate (Z.to_nat BOARD_SIDE) 0).

(** ** Index helpers *)

(** C's [/] and [%] on [int] truncate towards zero: [Z.quot] and [Z.rem]. *)
Definition GetRowByIndex (index : Z) : Z := Z.quot index BOARD_SIDE.
Definition GetColumnByIndex (index : Z) : Z := Z.rem index BOARD_SIDE.

(** ** The rule engine *)

(** The two nested loops of [ApplyLifeRule]: the number of non-zero cells of
    the 3x3 block around [row], [col], the cell itself included. *)
Definition count_block (bd : Board) (row col : Z) : outcome Z :=
  for_loop (row - 1) (row + 2) (fun neighbourRow lifeForms =>
    for_loop (col - 1) (col + 2) (fun neighbourCol lifeForms =>
      v ← load bd neighbourRow neighbourCol;
      Ok (if v =? 0 then lifeForms else lifeForms + 1)) lifeForms) 0.

Definition ApplyLifeRule (gol : gameOfLife_t) (row col : Z)
    : outcome gameOfLife_t :=
  if (row >? 0) && (row <? BOARD_SIDE - 1) then
    (* not the bottom or top row *)
    if (col >? 0) && (col <? BOARD_SIDE - 1) then
      (* middle board *)
      lifeForms ← count_block (board gol) row col;
      let lifeForms := lifeForms - 1 in
      if (lifeForms <? 2) || (lifeForms >? 3) then
        wb ← store (workBoard gol) row col 0; Ok (set_workBoard gol wb)
      else
        wb ← store (workBoard gol) row col 1; Ok (set_workBoard gol wb)
    else Ok gol (* left or right column: to implement *)
  else Ok gol (* top or bottom row: to implement *).

(** [UpdateBoard]: the rule over the indices from [BOARD_SIDE] on, then the
    [memcpy] of the working board over the displayed one. *)
Definition UpdateBoard (gol : gameOfLife_t) : outcome gameOfLife_t :=
  gol ← for_loop BOARD_SIDE (BOARD_SIDE * BOARD_SIDE) (fun i gol =>
           ApplyLifeRule gol (GetRowByIndex i) (GetColumnByIndex i)) gol;
  Ok (set_board gol (workBoard gol)).

(** [n] generation steps in a row. *)
Fixpoint generations (n : nat) (gol : gameOfLife_t) : outcome gameOfLife_t :=
  match n with
  | O => Ok gol
  | Datatypes.S n' => gol' ← UpdateBoard gol; generations n' gol'
  end.

(** ** The program state *)

(** [gameOfLife] of [main] with the globals the loop reads and writes, the
    number of calls of [random] made so far, and the arguments of the calls of
    [SDL_Delay], the latest first. *)
Record World : Type := mkWorld {
  game : gameOfLife_t;
  gameColors : SDL_Color;
  backgroundColor : SDL_Color;
  gFullscreen : Z;
  draws : nat;
  delays : list Z
}.

Definition set_game (w : World) (gol : gameOfLife_t) : World :=
  mkWorld gol (gameColors w) (backgroundColor w) (gFullscreen w) (draws w) (delays w).

Definition set_gFullscreen (w : World) (f : Z) : World :=
  mkWorld (game w) (gameColors w) (backgroundColor w) f (draws w) (delays w).

Definition set_delays (w : World) (l : list Z) : World :=
  mkWorld (game w) (gameColors w) (backgroundColor w) (gFullscreen w) (draws w) l.

(** What [colorPointer] points to. *)
Inductive color_target : Type := GameColors | BackgroundColor.

Definition color_at (p : color_target) (w : World) : SDL_Color :=
  match p with GameColors => gameColors w | BackgroundColor => backgroundColor w end.

Definition set_color_at (p : color_target) (w : World) (c : SDL_Color) : World :=
  match p with
  | GameColors =>
      mkWorld (game w) c (backgroundColor w) (gFullscreen w) (draws w) (delays w)
  | BackgroundColor =>
      mkWorld (game w) (gameColors w) c (gFullscreen w) (draws w) (delays w)
  end.

Definition set_r (c : SDL_Color) (v : Z) : SDL_Color := mkColor v (g c) (b c) (a c).
Definition set_g (c : SDL_Color) (v : Z) : SDL_Color := mkColor (r c) v (b c) (a c).
Definition set_b (c : SDL_Color) (v : Z) : SDL_Color := mkColor (r c) (g c) v (a c).

(** The state [main] builds before it calls [InitializeSimulation]: the
    initializer of [gameOfLife] names two fields, the boards are zeroed. *)
Definition main_world : World :=
  mkWorld (mkGameOfLife DEFAULT_DELTA_TIME false zero_board zero_board)
          (mkColor 255 127 0 255) (mkColor 0 0 0 255) 0 0 [].

(** ** Events and keys *)

Inductive SDL_Keycode : Type :=
  | SDLK_ESCAPE | SDLK_q | SDLK_p | SDLK_MINUS | SDLK_PLUS | SDLK_F11
  | SDLK_OTHER.

Definition SDL_BUTTON_LEFT : Z := 1.
Definition SDL_BUTTON_MIDDLE : Z := 2.
Definition SDL_BUTTON_RIGHT : Z := 3.

Inductive SDL_Event : Type :=
  | SDL_QUIT
  | SDL_KEYDOWN (sym : SDL_Keycode)
  | SDL_MOUSEBUTTONDOWN (button : Z)
  | SDL_OTHER_EVENT.

(** [EvaluateKey]; [deltaTime] is a [uint8_t], so [--] and [++] wrap. *)
Definition EvaluateKey (sym : SDL_Keycode) (w : World) : outcome World :=
  match sym with
  | SDLK_ESCAPE | SDLK_q => Exited 0
  | SDLK_p =>
      Ok (set_game w (set_simulationPaused (game w)
                        (if simulationPaused (game w) then false else true)))
  | SDLK_MINUS =>
      Ok (set_game w (set_deltaTime (game w) (to_uint8 (deltaTime (game w) - 1))))
  | SDLK_PLUS =>
      Ok (set_game w (set_deltaTime (game w) (to_uint8 (deltaTime (game w) + 1))))
  | SDLK_F11 =>
      if negb (gFullscreen w =? 0) then Ok (set_gFullscreen w 0)
      else Ok (set_gFullscreen w 1)
  | SDLK_OTHER => Ok w
  end.

(** ** The loop *)

(** Lines 155-157: the generation step, unless paused. *)
Definition SimulationLoop_tick (w : World) : outcome World :=
  if negb (simulationPaused (game w)) then
    gol ← UpdateBoard (game w); Ok (set_game w gol)
  else Ok w.

(** [n] passes through the head of the loop. *)
Fixpoint ticks (n : nat) (w : World) : outcome World :=
  match n with
  | O => Ok w
  | Datatypes.S n' => w' ← SimulationLoop_tick w; ticks n' w'
  end.

(** Line 184: [SDL_Delay( 1000 / gameOfLife->deltaTime )]. *)
Definition SimulationLoop_delay (w : World) : outcome World :=
  if deltaTime (game w) =? 0 then Faulted DivisionByZero
  else Ok (set_delays w (Z.quot 1000 (deltaTime (game w)) :: delays w)).

(** One step of the body of [SimulationLoop]: the conditional generation step
    at its head, one polled event, or the delay at its end. *)
Inductive loop_step : Type :=
  | Tick
  | Handle (event : SDL_Event)
  | Delay.

(** The steps of one pass of the loop that polls [events]. *)
Definition iteration_steps (events : list SDL_Event) : list loop_step :=
  Tick :: map Handle events ++ [Delay].

(** The steps of a run of the loop, up to any point of it: a beginning of
    whole passes. *)
Definition program_trace (steps : list loop_step) : Prop :=
  exists frames : list (list SDL_Event),
    steps `prefix_of` concat (map iteration_steps frames).

Section Simulation.

(** [random k]: what the call number [k] of the C library's [random]
    returns. *)
Variable random : nat -> Z.

(** A call of [random]. *)
Definition take_random (w : World) : Z * World :=
  (random (draws w),
   mkWorld (game w) (gameColors w) (backgroundColor w) (gFullscreen w)
           (Datatypes.S (draws w)) (delays w)).

(** One pass of the loop of [InitializeSimulation], at counter [i]. *)
Definition InitializeSimulation_pass (i : Z) (w : World) : outcome World :=
  let '(x, w) := take_random w in
  let randomNumber := to_uint8 (Z.rem x 10) in
  if randomNumber =? 0 then
    bd ← store (board (game w)) (GetColumnByIndex i) (GetRowByIndex i) 1;
    Ok (set_game w (set_board (game w) bd))
  else
    bd ← store (board (game w)) (GetColumnByIndex i) (GetRowByIndex i) 0;
    Ok (set_game w (set_board (game w) bd)).

(** [InitializeSimulation]: the loop counter is a [uint16_t], which the
    bound [BOARD_SIDE * BOARD_SIDE] does not let wrap. *)
Definition InitializeSimulation (w : World) : outcome World :=
  for_loop 0 (BOARD_SIDE * BOARD_SIDE) InitializeSimulation_pass w.

(** One case of the [switch] on the type of a polled event. *)
Definition handle_event (event : SDL_Event) (w : World) : outcome World :=
  match event with
  | SDL_QUIT => Exited 0
  | SDL_KEYDOWN sym => EvaluateKey sym w
  | SDL_MOUSEBUTTONDOWN button =>
      let colorPointer :=
        if button =? SDL_BUTTON_LEFT then GameColors else BackgroundColor in
      let '(x, w) := take_random w in
      let w := set_color_at colorPointer w
                 (set_r (color_at colorPointer w) (to_uint8 (Z.rem x 256))) in
      let '(x, w) := take_random w in
      let w := set_color_at colorPointer w
                 (set_g (color_at colorPointer w) (to_uint8 (Z.rem x 256))) in
      let '(x, w) := take_random w in
      let w := set_color_at colorPointer w
                 (set_b (color_at colorPointer w) (to_uint8 (Z.rem x 256))) in
      gol ← UpdateBoard (game w); Ok (set_game w gol)
  | SDL_OTHER_EVENT => Ok w
  end.

(** [while ( SDL_PollEvent( &event ) )] over the events that are pending. *)
Fixpoint poll_events (events : list SDL_Event) (w : World) : outcome World :=
  match events with
  | [] => Ok w
  | event :: events => w ← handle_event event w; poll_events events w
  end.

(** One pass of the body of [for ( ;; )]. *)
Definition SimulationLoop_iteration (events : list SDL_Event) (w : World)
    : outcome World :=
  w ← SimulationLoop_tick w;
  w ← poll_events events w;
  SimulationLoop_delay w.

(** The first passes of [SimulationLoop], one per list of pending events. *)
Fixpoint SimulationLoop (frames : list (list SDL_Event)) (w : World)
    : outcome World :=
  match frames with
  | [] => Ok w
  | events :: frames =>
      w ← SimulationLoop_iteration events w; SimulationLoop frames w
  end.

(** [main], with [InitializeGraphics] taken to succeed. *)
Definition main (frames : list (list SDL_Event)) : outcome World :=
  w ← InitializeSimulation main_world; SimulationLoop frames w.

Definition run_step (step : loop_step) (w : World) : outcome World :=
  match step with
  | Tick => SimulationLoop_tick w
  | Handle event => handle_event event w
  | Delay => SimulationLoop_delay w
  end.

Fixpoint run_steps (steps : list loop_step) (w : World) : outcome World :=
  match steps with
  | [] => Ok w
  | step :: steps => w ← run_step step w; run_steps steps w
  end.

(** The program from the start of [main] through the given steps of the
    loop. *)
Definition main_steps (steps : list loop_step) : outcome World :=
  w ← InitializeSimulation main_world; run_steps steps w.

End Simulation.

(** ** The vocabulary of the statements *)

(** The cell at [row], [col] of a board ([0] outside it). *)
Definition cell (bd : Board) (row col : Z) : Z :=
  default 0 (bd !! Z.to_nat row ≫= (.!! Z.to_nat col)).

(** A board of [BOARD_SIDE] rows of [BOARD_SIDE] cells. *)
Definition board_ok (bd : Board) : Prop :=
  length bd = Z.to_nat BOARD_SIDE /\
  Forall (fun line => length line = Z.to_nat BOARD_SIDE) bd.

#[global] Instance board_ok_dec bd : Decision (board_ok bd).
Proof. unfold board_ok. apply _. Defined.

Definition boards_ok (gol : gameOfLife_t) : Prop :=
  board_ok (board gol) /\ board_ok (workBoard gol).

Definition in_board (row col : Z) : Prop :=
  0 <= row < BOARD_SIDE /\ 0 <= col < BOARD_SIDE.

(** The cells the rule engine handles: not on the first or last row or
    column. *)
Definition interior (row col : Z) : bool :=
  (0 <? row) && (row <? BOARD_SIDE - 1) && (0 <? col) && (col <? BOARD_SIDE - 1).

(** On the first or last row or column. *)
Definition boundary (row col : Z) : Prop :=
  in_board row col /\
  (row = 0 \/ row = BOARD_SIDE - 1 \/ col = 0 \/ col = BOARD_SIDE - 1).

(** [1] for a cell the code's test [if ( board[..][..] )] takes as alive. *)
Definition alive (bd : Board) (row col : Z) : Z :=
  if cell bd row col =? 0 then 0 else 1.

(** The live cells among the 8 cells around [row], [col]. *)
Definition live_neighbours (bd : Board) (row col : Z) : Z :=
  alive bd (row - 1) (col - 1) + alive bd (row - 1) col + alive bd (row - 1) (col + 1)
  + alive bd row (col - 1) + alive bd row (col + 1)
  + alive bd (row + 1) (col - 1) + alive bd (row + 1) col + alive bd (row + 1) (col + 1).

(** The value [ApplyLifeRule] writes for an interior cell: [lifeForms] is the
    count over the whole 3x3 block, less one. *)
Definition next_state (bd : Board) (row col : Z) : Z :=
  let lifeForms := live_neighbours bd row col + alive bd row col - 1 in
  if (lifeForms <? 2) || (lifeForms >? 3) then 0 else 1.

(** No live cell. *)
Definition all_dead (bd : Board) : bool :=
  forallb (forallb (fun v => v =? 0)) bd.

(** No live cell on the first and last rows and columns. *)
Definition boundary_dead (bd : Board) : Prop :=
  forall row col, boundary row col -> cell bd row col = 0.

(** The place of a cell in the numbering [UpdateBoard] walks, row by row. *)
Definition cell_index (row col : Z) : Z := row * BOARD_SIDE + col.

(** The number of the pass of [InitializeSimulation] that writes
    [board[row][col]]: it walks the board column by column. *)
Definition seed_index (row col : Z) : Z := col * BOARD_SIDE + row.

(** The cell [InitializeSimulation] writes from the call number [k] of
    [random]. *)
Definition seed_cell (random : nat -> Z) (k : nat) : Z :=
  if to_uint8 (Z.rem (random k) 10) =? 0 then 1 else 0.

(** The state of [InitializeSimulation] started in [w0], with displayed
    board [bd] after [k] calls of [random]. *)
Definition seeded (w0 : World) (bd : Board) (k : nat) : World :=
  mkWorld (mkGameOfLife (deltaTime (game w0)) (simulationPaused (game w0)) bd
                        (workBoard (game w0)))
          (gameColors w0) (backgroundColor w0) (gFullscreen w0)
          (draws w0 + k) (delays w0).

(** ** Invariants *)

(** The loop of [UpdateBoard] before index [j]: only the working board has
    changed, at the interior cells numbered below [j]. *)
Definition UpdateBoard_inv (gol0 : gameOfLife_t) (j : Z) (gol : gameOfLife_t) : Prop :=
  deltaTime gol = deltaTime gol0 /\
  simulationPaused gol = simulationPaused gol0 /\
  board gol = board gol0 /\
  board_ok (workBoard gol) /\
  forall row col, in_board row col ->
    cell (workBoard gol) row col =
      if interior row col && (cell_index row col <? j)
      then next_state (board gol0) row col
      else cell (workBoard gol0) row col.

(** The loop of [InitializeSimulation] before counter [j]. *)
Definition InitializeSimulation_inv (random : nat -> Z) (w0 : World) (j : Z)
    (w : World) : Prop :=
  exists bd,
    w = seeded w0 bd (Z.to_nat j) /\
    board_ok bd /\
    forall row col, in_board row col ->
      cell bd row col =
        if seed_index row col <? j
        then seed_cell random (draws w0 + Z.to_nat (seed_index row col))
        else cell (board (game w0)) row col.

(** What the steps of the loop keep true: the boards are well formed and no
    boundary cell of the working board is alive. *)
Definition game_inv (gol : gameOfLife_t) : Prop :=
  boards_ok gol /\ boundary_dead (workBoard gol).

(** A step of the loop leaves both boards alone or is a generation step. *)
Inductive game_effect (gol gol' : gameOfLife_t) : Prop :=
  | boards_kept :
      board gol' = board gol -> workBoard gol' = workBoard gol ->
      game_effect gol gol'
  | generation : UpdateBoard gol = Ok gol' -> game_effect gol gol'.

(** ** Inputs of the examples *)

(** A board with two live cells, both next to the dead cell at row 2,
    column 2, and one with four. *)
Definition two_neighbours : Board :=
  board_upd (board_upd zero_board 1 1 1) 1 2 1.

Definition four_neighbours : Board :=
  board_upd (board_upd two_neighbours 1 3 1) 2 1 1.

(** A paused game. *)
Definition paused_world : World :=
  mkWorld (mkGameOfLife 60 true two_neighbours two_neighbours)
          (mkColor 255 127 0 255) (mkColor 0 0 0 255) 0 0 [].

(** A paused game: the cell at row 2, column 2 is alive and alone, so a
    generation step kills it. *)
Definition paused_lonely : World :=
  mkWorld (mkGameOfLife 60 true (board_upd zero_board 2 2 1) zero_board)
          (mkColor 255 127 0 255) (mkColor 0 0 0 255) 0 0 [].

(** A working board with a live cell in the corner. *)
Definition stale_corner : gameOfLife_t :=
  mkGameOfLife 60 false zero_board (board_upd zero_board 0 0 1).

(** A live cell at row 2, column 2 next to two live cells. *)
Definition live_with_two : gameOfLife_t :=
  mkGameOfLife 60 false (board_upd two_neighbours 2 2 1) zero_board.

(** A state for a mouse click, seven calls of [random] into the run. *)
Definition click_world : World :=
  mkWorld (game main_world) (mkColor 255 127 0 255) (mkColor 0 0 0 255) 0 7 [].

(** ** Further vocabulary *)

(** The canonical rule of Conway's Game of Life, which the header of the
    source names: a live cell survives with 2 or 3 live neighbours, a dead
    cell comes alive with exactly 3. *)
Definition canonical_rule (own live_count : Z) : Z :=
  if own =? 0 then (if live_count =? 3 then 1 else 0)
  else (if (live_count =? 2) || (live_count =? 3) then 1 else 0).

(** Every cell holds 0 or 1. *)
Definition binary_board (bd : Board) : Prop :=
  forall row col, in_board row col -> cell bd row col = 0 \/ cell bd row col = 1.

(** The mouse-button-down events among the steps of a run. *)
Fixpoint clicks (steps : list loop_step) : nat :=
  match steps with
  | [] => O
  | Handle (SDL_MOUSEBUTTONDOWN _) :: steps => Datatypes.S (clicks steps)
  | _ :: steps => clicks steps
  end.

(** What the speed keys and the delay keep true of a state: the rate is a
    [uint8_t] and every delay asked for so far lies between 3 and 1000
    milliseconds. *)
Definition rate_inv (w : World) : Prop :=
  0 <= deltaTime (game w) < 256 /\
  Forall (fun ms => 3 <= ms <= 1000) (delays w).

(** [two_neighbours] mirrored in the diagonal. *)
Definition two_neighbours_transposed : Board :=
  board_upd (board_upd zero_board 1 1 1) 2 1 1.

(** [two_neighbours] with one more live cell far from row 2, column 2, in a
    paused game with another rate. *)
Definition far_cell_differs : gameOfLife_t :=
  mkGameOfLife 7 true (board_upd two_neighbours 100 100 1)
               (board_upd zero_board 50 50 1).

(** ** Drawing *)

(** The calls [UpdateBoard] and [InitializeGraphics] make on [gRenderer]. *)
Inductive SDL_call : Type :=
  | SDL_SetRenderDrawColor (color : SDL_Color)
  | SDL_RenderClear
  | SDL_RenderDrawLine (x1 y1 x2 y2 : Z)
  | SDL_RenderFillRect (x y w h : Z)
  | SDL_RenderPresent.

(** Conversion to [uint16_t]. *)
Definition to_uint16 (x : Z) : Z := x mod 65536.

(** [while ( lineX < PIXEL_SIZE * BOARD_SIDE ) { ...; lineX += PIXEL_SIZE; }]
    of [UpdateBoard], with [lineX] a [uint16_t]: every pass appends a
    horizontal and a vertical line to the calls made so far.  [fuel] bounds
    the number of evaluations of the test; [None] when it runs out. *)
Fixpoint draw_grid (fuel : nat) (lineX : Z) (calls : list SDL_call)
    : option (list SDL_call) :=
  match fuel with
  | O => None
  | Datatypes.S fuel' =>
      if lineX <? PIXEL_SIZE * BOARD_SIDE then
        draw_grid fuel' (to_uint16 (lineX + PIXEL_SIZE))
          (calls ++ [SDL_RenderDrawLine 0 lineX (PIXEL_SIZE * BOARD_SIDE) lineX;
                     SDL_RenderDrawLine lineX 0 lineX (PIXEL_SIZE * BOARD_SIDE)])
      else Some calls
  end.

(** The last loop of [UpdateBoard]: a square of side [PIXEL_SIZE] for every
    cell that holds 1; [pixel.x] comes from the first index of the cell and
    [pixel.y] from the second. *)
Definition draw_cells (bd : Board) (calls : list SDL_call)
    : outcome (list SDL_call) :=
  for_loop 0 (BOARD_SIDE * BOARD_SIDE) (fun i calls =>
    v ← load bd (GetRowByIndex i) (GetColumnByIndex i);
    Ok (if v =? 1
        then calls ++ [SDL_RenderFillRect (GetRowByIndex i * PIXEL_SIZE)
                                          (GetColumnByIndex i * PIXEL_SIZE)
                                          PIXEL_SIZE PIXEL_SIZE]
        else calls)) calls.

(** The whole of [UpdateBoard] with the calls it makes on the renderer, the
    globals [backgroundColor] and [gameColors] read from [w]: the screen is
    cleared, the grid drawn, the generation computed by [UpdateBoard] above,
    the cells of the new board drawn and the frame presented. *)
Definition UpdateBoard_frame (fuel : nat) (w : World) (gol : gameOfLife_t)
    : option (outcome (gameOfLife_t * list SDL_call)) :=
  calls ← draw_grid fuel 0 [SDL_SetRenderDrawColor (backgroundColor w);
                            SDL_RenderClear;
                            SDL_SetRenderDrawColor (gameColors w)];
  Some (gol ← UpdateBoard gol;
        calls ← draw_cells (board gol) calls;
        Ok (gol, calls ++ [SDL_RenderPresent])).

(** The two lines of the grid at offset [x]. *)
Definition grid_lines_at (x : Z) : list SDL_call :=
  [SDL_RenderDrawLine 0 x (PIXEL_SIZE * BOARD_SIDE) x;
   SDL_RenderDrawLine x 0 x (PIXEL_SIZE * BOARD_SIDE)].

(** The lines of the grid: one pair every [PIXEL_SIZE] pixels, from 0 up to
    the last offset below the side of the window. *)
Definition grid_lines : list SDL_call :=
  flat_map (fun k => grid_lines_at (PIXEL_SIZE * k)) (seqZ 0 BOARD_SIDE).

(** The square drawn for the cell at [row], [col]. *)
Definition cell_rect (row col : Z) : SDL_call :=
  SDL_RenderFillRect (row * PIXEL_SIZE) (col * PIXEL_SIZE) PIXEL_SIZE PIXEL_SIZE.

(** The squares of the cells numbered below [j] that hold 1, in the order of
    their numbers. *)
Definition cell_rects_below (bd : Board) (j : Z) : list SDL_call :=
  (fun i => cell_rect (GetRowByIndex i) (GetColumnByIndex i)) <$>
    filter (fun i => cell bd (GetRowByIndex i) (GetColumnByIndex i) = 1)
           (seqZ 0 j).

Definition cell_rects (bd : Board) : list SDL_call :=
  cell_rects_below bd (BOARD_SIDE * BOARD_SIDE).

(** ** [Abort] and [InitializeGraphics] *)

(** How a call of [Abort] ends; it never returns.  Either it has written
    [text] to [stderr] and leaves through [exit], or it has come to a
    placeholder and reads [stackArguments] with [va_arg], which no [va_start]
    has initialised: the C standard leaves that undefined; [text] is what was
    written up to there. *)
Inductive Abort_end : Type :=
  | Abort_exit (text : string) (status : Z)
  | Abort_va_arg (text : string).

Definition newline : string := String "010"%char EmptyString.

(** The test [errorMessage[c] == '{' && errorMessage[c+1] == '}'] on the
    characters of a C string from index [c] on; the character after the last
    one is the terminator. *)
Definition at_placeholder (s : string) : bool :=
  match s with
  | String c rest =>
      Ascii.eqb c "{"%char &&
      match rest with
      | String next _ => Ascii.eqb next "}"%char
      | EmptyString => false
      end
  | EmptyString => false
  end.

(** The loop of [Abort] over the characters of [errorMessage] that are left
    (a C string: the characters before the terminator), [text] being what
    [stderr] holds so far. *)
Fixpoint Abort_from (errorMessage text : string) : Abort_end :=
  match errorMessage with
  | EmptyString => Abort_exit (text +:+ newline) 1
  | String c rest =>
      if at_placeholder errorMessage then Abort_va_arg text
      else Abort_from rest (text +:+ String c EmptyString)
  end.

Definition Abort (errorMessage : string) : Abort_end :=
  Abort_from errorMessage EmptyString.

(** What SDL answers to the three calls of [InitializeGraphics]: the value of
    [SDL_Init], and whether [SDL_CreateWindow] and [SDL_CreateRenderer] give
    an object ([false] for [NULL]). *)
Record SDL_answers : Type := mkAnswers {
  SDL_Init_value : Z;
  SDL_CreateWindow_some : bool;
  SDL_CreateRenderer_some : bool
}.

(** How [InitializeGraphics] ends: it returns with a window of the given
    title and size and the calls made on its renderer, or inside [Abort]. *)
Inductive InitializeGraphics_end : Type :=
  | Graphics_ready (title : string) (width height : Z) (calls : list SDL_call)
  | Graphics_aborted (e : Abort_end).

Definition InitializeGraphics (sdl : SDL_answers) (w : World)
    : InitializeGraphics_end :=
  if negb (SDL_Init_value sdl =? 0) then
    Graphics_aborted (Abort "Cannot initialize SDL2: {}")
  else if negb (SDL_CreateWindow_some sdl) then
    Graphics_aborted (Abort "[-] Cannot create window: {}")
  else if negb (SDL_CreateRenderer_some sdl) then
    Graphics_aborted (Abort "[-] Cannot create renderer: {}")
  else
    Graphics_ready "Game of Life" (PIXEL_SIZE * BOARD_SIDE) (PIXEL_SIZE * BOARD_SIDE)
      [SDL_SetRenderDrawColor (gameColors w); SDL_RenderClear].

(** A message without placeholder: [{}] occurs nowhere in it. *)
Definition placeholder_free (s : string) : Prop :=
  forall pre post, s <> pre +:+ "{}" +:+ post.

(** Whether [{}] occurs in a string. *)
Fixpoint has_placeholder (s : string) : bool :=
  match s with
  | EmptyString => false
  | String _ rest => at_placeholder s || has_placeholder rest
  end.

(** All three calls of SDL succeed. *)
Definition SDL_succeeds (sdl : SDL_answers) : Prop :=
  SDL_Init_value sdl = 0 /\
  SDL_CreateWindow_some sdl = true /\
  SDL_CreateRenderer_some sdl = true.

(** * Part 2: properties *)

(** ** Outcomes and loops *)

Lemma ret_bind {A B} (x : A) (k : A -> outcome B) : (Ok x ≫= k) = k x.
Proof. reflexivity. Qed.

Lemma Ok_inj {A} (x y : A) : Ok x = Ok y -> x = y.
Proof. by intros [= ->]. Qed.

Lemma Ok_returned {A} (d : A) (m : outcome A) :
  (exists x, m = Ok x) -> m = Ok (returned d m).
Proof. by intros [x ->]. Qed.

Lemma bind_Ok {A B} (m : outcome A) (k : A -> outcome B) (y : B) :
  m ≫= k = Ok y -> exists x, m = Ok x /\ k x = Ok y.
Proof. destruct m as [x| |]; [|done..]. intros Hk. by exists x. Qed.

(** The loop rule: an invariant [P j s] that every pass of the body carries
    from [j] to [j + 1] holds at the end, and the loop returns. *)
Lemma for_range_invariant {S : Type} (P : Z -> S -> Prop)
    (body : Z -> S -> outcome S) (n : nat) :
  forall (i : Z) (s : S),
    P i s ->
    (forall j t, i <= j < i + Z.of_nat n -> P j t ->
       exists t', body j t = Ok t' /\ P (j + 1) t') ->
    exists s', for_range n i body s = Ok s' /\ P (i + Z.of_nat n) s'.
Proof.
  induction n as [|n IH]; intros i s Hinit Hstep.
  - exists s. split; [done|]. by replace (i + Z.of_nat 0) with i by lia.
  - destruct (Hstep i s) as (t & Hbody & Ht); [lia|done|].
    destruct (IH (i + 1) t Ht) as (s' & Hloop & Hs').
    { intros j u Hj. apply Hstep. lia. }
    exists s'. split.
    + cbn [for_range]. by rewrite Hbody, ret_bind.
    + by replace (i + Z.of_nat (Datatypes.S n)) with (i + 1 + Z.of_nat n) by lia.
Qed.

(** ** Boards: reading and writing in range *)

Lemma BOARD_SIDE_eq : BOARD_SIDE = 200.
Proof. reflexivity. Qed.

Example to_uint8_below_zero : to_uint8 (0 - 1) = 255.
Proof. reflexivity. Qed.

Example index_401 : GetRowByIndex 401 = 2 /\ GetColumnByIndex 401 = 1.
Proof. split; reflexivity. Qed.

Section WellFormedBoard.

(** A board of the right shape: every index in range reads and writes. *)
Variable bd : Board.
Hypothesis Hok : board_ok bd.

Lemma board_ok_row row :
  0 <= row < BOARD_SIDE ->
  exists line, bd !! Z.to_nat row = Some line /\ length line = Z.to_nat BOARD_SIDE.
Proof.
  intros Hrow. destruct Hok as [Hlen Hrows].
  destruct (lookup_lt_is_Some_2 bd (Z.to_nat row)) as [line Hline]; [lia|].
  exists line. split; [done|].
  by apply (Forall_lookup_1 _ _ _ _ Hrows Hline).
Qed.

Lemma board_ok_cell row col :
  in_board row col ->
  bd !! Z.to_nat row ≫= (.!! Z.to_nat col) = Some (cell bd row col).
Proof.
  intros [Hrow Hcol]. unfold cell.
  destruct (board_ok_row row Hrow) as (line & -> & Hlen). cbn [mbind option_bind].
  destruct (lookup_lt_is_Some_2 line (Z.to_nat col)) as [v ->]; [lia|]. done.
Qed.

Lemma load_ok row col :
  in_board row col -> load bd row col = Ok (cell bd row col).
Proof.
  intros Hin. unfold load. rewrite (board_ok_cell _ _ Hin).
  destruct Hin as [? ?].
  by rewrite (proj2 (Z.leb_le 0 row)), (proj2 (Z.leb_le 0 col)) by lia.
Qed.

Lemma store_ok row col v :
  in_board row col -> store bd row col v = Ok (board_upd bd row col v).
Proof.
  intros Hin. unfold store. rewrite (board_ok_cell _ _ Hin).
  destruct Hin as [? ?].
  by rewrite (proj2 (Z.leb_le 0 row)), (proj2 (Z.leb_le 0 col)) by lia.
Qed.

Lemma board_upd_ok row col v : board_ok (board_upd bd row col v).
Proof.
  destruct Hok as [Hlen Hrows]. unfold board_upd. split.
  - by rewrite length_alter.
  - apply Forall_alter; [done|]. intros line _ Hl. by rewrite length_insert.
Qed.

Lemma cell_board_upd row col v row' col' :
  in_board row col -> 0 <= row' -> 0 <= col' ->
  cell (board_upd bd row col v) row' col' =
    if decide (row' = row /\ col' = col) then v else cell bd row' col'.
Proof.
  intros [Hrow Hcol] Hrow' Hcol'. unfold cell, board_upd.
  destruct (board_ok_row row Hrow) as (line & Hline & Hlen).
  destruct (decide (row' = row)) as [->|Hne].
  - rewrite list_lookup_alter_eq, Hline. cbn [fmap option_fmap option_map mbind option_bind].
    destruct (decide (col' = col)) as [->|Hne].
    + rewrite list_lookup_insert_eq by lia. by rewrite decide_True.
    + rewrite list_lookup_insert_ne by lia. rewrite decide_False by tauto. done.
  - rewrite list_lookup_alter_ne by lia. rewrite decide_False by tauto. done.
Qed.

Lemma all_dead_cell row col :
  all_dead bd = true -> in_board row col -> cell bd row col = 0.
Proof.
  intros Hdead [Hrow Hcol]. unfold cell.
  destruct (board_ok_row row Hrow) as (line & Hline & Hlen).
  rewrite Hline. cbn [mbind option_bind].
  destruct (lookup_lt_is_Some_2 line (Z.to_nat col)) as [v Hv]; [lia|].
  rewrite Hv. cbn [default].
  unfold all_dead in Hdead. rewrite forallb_forall in Hdead.
  apply list_elem_of_lookup_2, list_elem_of_In in Hline, Hv.
  specialize (Hdead line Hline). rewrite forallb_forall in Hdead.
  by apply Z.eqb_eq, Hdead.
Qed.

Lemma cells_all_dead :
  (forall row col, in_board row col -> cell bd row col = 0) ->
  all_dead bd = true.
Proof.
  intros Hcells. destruct Hok as [Hlen Hrows]. unfold all_dead.
  apply forallb_forall. intros line Hline. apply forallb_forall. intros v Hv.
  apply list_elem_of_In, list_elem_of_lookup_1 in Hline as [i Hi], Hv as [j Hj].
  pose proof (lookup_lt_Some _ _ _ Hi) as Hilt.
  pose proof (lookup_lt_Some _ _ _ Hj) as Hjlt.
  rewrite (Forall_lookup_1 _ _ _ _ Hrows Hi) in Hjlt.
  specialize (Hcells (Z.of_nat i) (Z.of_nat j)). unfold cell in Hcells.
  rewrite !Nat2Z.id, Hi in Hcells. cbn [mbind option_bind] in Hcells.
  rewrite Hj in Hcells. cbn [default] in Hcells.
  apply Z.eqb_eq, Hcells. unfold in_board. lia.
Qed.

End WellFormedBoard.

Lemma zero_board_ok : board_ok zero_board.
Proof.
  split; unfold zero_board.
  - by rewrite length_replicate.
  - apply Forall_replicate. by rewrite length_replicate.
Qed.

Lemma cell_replicate (n m : nat) row col :
  cell (replicate n (replicate m 0)) row col = 0.
Proof.
  unfold cell.
  destruct (_ !! Z.to_nat row) as [line|] eqn:Hline; [|done].
  apply lookup_replicate in Hline as [-> _]. cbn [mbind option_bind].
  destruct (_ !! Z.to_nat col) as [v|] eqn:Hv; [|done].
  by apply lookup_replicate in Hv as [-> _].
Qed.

Lemma cell_zero_board row col : cell zero_board row col = 0.
Proof. apply cell_replicate. Qed.

Lemma boundary_dead_zero_board : boundary_dead zero_board.
Proof. intros row col _. apply cell_zero_board. Qed.

(** Facts on the shape of boards, for [auto]. *)
Create HintDb boards.
#[global] Hint Resolve zero_board_ok board_upd_ok boundary_dead_zero_board : boards.

(** The well-formedness of a concrete board, by computation. *)
Ltac board_ok_by_computation :=
  apply (bool_decide_unpack _); vm_compute; exact I.

Example load_outside : load zero_board 0 200 = Faulted OutOfBounds.
Proof. vm_compute. reflexivity. Qed.

(** ** The rule engine on a well-formed board *)

Lemma interior_spec row col :
  interior row col = true <->
  (0 < row < BOARD_SIDE - 1 /\ 0 < col < BOARD_SIDE - 1).
Proof.
  unfold interior. rewrite !andb_true_iff, !Z.ltb_lt. tauto.
Qed.

Lemma interior_false row col :
  interior row col = false <->
  (row <= 0 \/ BOARD_SIDE - 1 <= row \/ col <= 0 \/ BOARD_SIDE - 1 <= col).
Proof.
  rewrite <- not_true_iff_false, interior_spec. lia.
Qed.

Lemma boundary_not_interior row col : boundary row col -> interior row col = false.
Proof. intros [_ H]. apply interior_false. lia. Qed.

(** One pass of the inner loop body. *)
Lemma count_step bd row col n :
  board_ok bd -> in_board row col ->
  (v ← load bd row col; Ok (if v =? 0 then n else n + 1)) = Ok (n + alive bd row col).
Proof.
  intros Hok Hin. rewrite (load_ok _ Hok _ _ Hin), ret_bind. unfold alive.
  destruct (cell bd row col =? 0); f_equal; lia.
Qed.

Lemma count_block_ok bd row col :
  board_ok bd -> interior row col = true ->
  count_block bd row col = Ok (live_neighbours bd row col + alive bd row col).
Proof.
  intros Hok Hint. apply interior_spec in Hint as [[? ?] [? ?]].
  unfold count_block, for_loop.
  replace (row + 2 - (row - 1)) with 3 by lia.
  replace (col + 2 - (col - 1)) with 3 by lia.
  change (Z.to_nat 3) with 3%nat. cbn [for_range].
  replace (row - 1 + 1) with row by lia.
  replace (col - 1 + 1) with col by lia.
  repeat (rewrite count_step by (done || (unfold in_board; lia));
          rewrite ?ret_bind). unfold live_neighbours. f_equal. lia.
Qed.

Lemma ApplyLifeRule_interior gol row col :
  board_ok (board gol) -> board_ok (workBoard gol) -> interior row col = true ->
  ApplyLifeRule gol row col =
    Ok (set_workBoard gol
          (board_upd (workBoard gol) row col (next_state (board gol) row col))).
Proof.
  intros Hb Hw Hint. unfold ApplyLifeRule.
  rewrite (count_block_ok _ _ _ Hb Hint), ret_bind.
  apply interior_spec in Hint as [[? ?] [? ?]].
  rewrite (proj2 (Z.gtb_gt row 0)), (proj2 (Z.ltb_lt row _)) by lia.
  rewrite (proj2 (Z.gtb_gt col 0)), (proj2 (Z.ltb_lt col _)) by lia.
  cbn [andb]. unfold next_state. cbv zeta.
  destruct ((_ <? 2) || (_ >? 3));
    rewrite store_ok by (done || (unfold in_board; lia)); done.
Qed.

Lemma ApplyLifeRule_not_interior gol row col :
  interior row col = false -> ApplyLifeRule gol row col = Ok gol.
Proof.
  intros Hint. unfold ApplyLifeRule. unfold interior in Hint.
  rewrite !Z.gtb_ltb.
  destruct (0 <? row), (row <? BOARD_SIDE - 1); try done.
  destruct (0 <? col), (col <? BOARD_SIDE - 1); done.
Qed.

(** For a live interior cell [lifeForms] is the number of live neighbours. *)
Lemma next_state_live_cell bd row col :
  alive bd row col = 1 ->
  next_state bd row col =
    if (live_neighbours bd row col <? 2) || (live_neighbours bd row col >? 3)
    then 0 else 1.
Proof.
  intros Hlive. unfold next_state. rewrite Hlive. cbv zeta.
  by replace (live_neighbours bd row col + 1 - 1) with (live_neighbours bd row col) by lia.
Qed.

(** For a dead interior cell [lifeForms] is one less than the number of live
    neighbours: the cell comes alive with 3 or 4 of them. *)
Lemma next_state_dead_cell bd row col :
  alive bd row col = 0 ->
  next_state bd row col =
    if (live_neighbours bd row col <? 3) || (live_neighbours bd row col >? 4)
    then 0 else 1.
Proof.
  intros Hdead. unfold next_state. rewrite Hdead. cbv zeta.
  rewrite !Z.gtb_ltb.
  destruct (Z.ltb_spec (live_neighbours bd row col + 0 - 1) 2),
           (Z.ltb_spec 3 (live_neighbours bd row col + 0 - 1)),
           (Z.ltb_spec (live_neighbours bd row col) 3),
           (Z.ltb_spec 4 (live_neighbours bd row col)); (done || lia).
Qed.

Lemma next_state_all_dead bd row col :
  interior row col = true ->
  (forall row col, in_board row col -> cell bd row col = 0) ->
  live_neighbours bd row col = 0 /\ next_state bd row col = 0.
Proof.
  intros Hint Hdead. apply interior_spec in Hint as [[? ?] [? ?]].
  unfold next_state, live_neighbours, alive.
  rewrite !Hdead by (unfold in_board; lia). done.
Qed.

(** C1 (the code departs from the claim): the claim gives a cell with exactly
    2 live neighbours alive and one with more than 3 dead, whatever the cell
    itself is.  [ApplyLifeRule] writes dead for the dead interior cell at row
    2, column 2 of [two_neighbours], which has exactly 2 live neighbours, and
    alive for the same cell of [four_neighbours], which has 4: the count
    over the 3x3 block is decremented even when the cell itself is dead. *)
Theorem ApplyLifeRule_dead_cell_miscounted :
  (interior 2 2 = true /\
   cell two_neighbours 2 2 = 0 /\ live_neighbours two_neighbours 2 2 = 2 /\
   exists gol,
     ApplyLifeRule (mkGameOfLife 60 false two_neighbours zero_board) 2 2 = Ok gol /\
     cell (workBoard gol) 2 2 = 0) /\
  (cell four_neighbours 2 2 = 0 /\ live_neighbours four_neighbours 2 2 = 4 /\
   exists gol,
     ApplyLifeRule (mkGameOfLife 60 false four_neighbours zero_board) 2 2 = Ok gol /\
     cell (workBoard gol) 2 2 = 1).
Proof.
  split_and!; try (vm_compute; reflexivity).
  - exists (mkGameOfLife 60 false two_neighbours (board_upd zero_board 2 2 0)).
    split; vm_compute; reflexivity.
  - exists (mkGameOfLife 60 false four_neighbours (board_upd zero_board 2 2 1)).
    split; vm_compute; reflexivity.
Qed.

(** ** The generation step *)

Lemma index_row_col i :
  0 <= i < BOARD_SIDE * BOARD_SIDE ->
  in_board (GetRowByIndex i) (GetColumnByIndex i) /\
  cell_index (GetRowByIndex i) (GetColumnByIndex i) = i.
Proof.
  unfold GetRowByIndex, GetColumnByIndex, cell_index, in_board, BOARD_SIDE.
  intros Hi. rewrite Z.quot_div_nonneg, Z.rem_mod_nonneg by lia.
  pose proof (Z.div_mod i 200 ltac:(lia)).
  pose proof (Z.mod_pos_bound i 200 ltac:(lia)).
  split; [|lia]. split; [|lia].
  split; [apply Z.div_pos; lia|apply Z.div_lt_upper_bound; lia].
Qed.

Lemma cell_index_inj row col row' col' :
  in_board row col -> in_board row' col' ->
  cell_index row col = cell_index row' col' -> row = row' /\ col = col'.
Proof. unfold cell_index, in_board, BOARD_SIDE. lia. Qed.

Lemma UpdateBoard_inv_init gol0 :
  board_ok (workBoard gol0) -> UpdateBoard_inv gol0 BOARD_SIDE gol0.
Proof.
  intros Hw. unfold UpdateBoard_inv. split_and!; try done.
  intros row col Hin. destruct (interior row col) eqn:Hint; [|done].
  apply interior_spec in Hint as [[? ?] [? ?]].
  rewrite (proj2 (Z.ltb_ge _ _)); [done|]. unfold cell_index, BOARD_SIDE in *. lia.
Qed.

Lemma UpdateBoard_inv_step gol0 j gol :
  board_ok (board gol0) ->
  BOARD_SIDE <= j < BOARD_SIDE * BOARD_SIDE ->
  UpdateBoard_inv gol0 j gol ->
  exists gol',
    ApplyLifeRule gol (GetRowByIndex j) (GetColumnByIndex j) = Ok gol' /\
    UpdateBoard_inv gol0 (j + 1) gol'.
Proof.
  intros Hb Hj (Hd & Hp & Hbd & Hw & Hcells).
  destruct (index_row_col j) as [Hin Hidx]; [unfold BOARD_SIDE in *; lia|].
  set (q := GetRowByIndex j) in *. set (m := GetColumnByIndex j) in *.
  destruct (interior q m) eqn:Hint.
  - rewrite ApplyLifeRule_interior by (done || by rewrite Hbd).
    eexists. split; [done|].
    unfold UpdateBoard_inv. cbn [workBoard set_workBoard].
    split_and!; try done.
    { auto with boards. }
    intros row col Hrc. rewrite cell_board_upd by (done || apply Hrc).
    rewrite Hcells by done. rewrite Hbd.
    destruct (decide (row = q /\ col = m)) as [[-> ->]|Hne].
    + rewrite Hint, Hidx. rewrite (proj2 (Z.ltb_lt j (j + 1))) by lia.
      cbn [andb]. reflexivity.
    + assert (cell_index row col <> j) as Hneq.
      { intros Heq. rewrite <- Hidx in Heq.
        by apply cell_index_inj in Heq. }
      destruct (Z.ltb_spec (cell_index row col) j),
               (Z.ltb_spec (cell_index row col) (j + 1)); (done || lia).
  - rewrite ApplyLifeRule_not_interior by done.
    eexists. split; [done|]. unfold UpdateBoard_inv. split_and!; try done.
    intros row col Hrc. rewrite Hcells by done.
    destruct (interior row col) eqn:Hint'; [|done]. cbn [andb].
    assert (cell_index row col <> j) as Hneq.
    { intros Heq. rewrite <- Hidx in Heq.
      apply cell_index_inj in Heq as [-> ->]; [congruence|done..]. }
    destruct (Z.ltb_spec (cell_index row col) j),
             (Z.ltb_spec (cell_index row col) (j + 1)); (done || lia).
Qed.

(** What a generation step does to a game with well-formed boards: it
    returns; the rate and the pause flag are kept; the displayed board is
    the working board, whose interior cells hold the rule's value on the
    old displayed board and whose other cells are as they were. *)
Lemma UpdateBoard_spec gol :
  board_ok (board gol) -> board_ok (workBoard gol) ->
  exists wb,
    UpdateBoard gol = Ok (mkGameOfLife (deltaTime gol) (simulationPaused gol) wb wb) /\
    board_ok wb /\
    forall row col, in_board row col ->
      cell wb row col =
        if interior row col then next_state (board gol) row col
        else cell (workBoard gol) row col.
Proof.
  intros Hb Hw. unfold UpdateBoard, for_loop.
  destruct (for_range_invariant (UpdateBoard_inv gol)
              (fun i gol => ApplyLifeRule gol (GetRowByIndex i) (GetColumnByIndex i))
              (Z.to_nat (BOARD_SIDE * BOARD_SIDE - BOARD_SIDE)) BOARD_SIDE gol)
    as (gol' & -> & Hd & Hp & Hbd & Hw' & Hcells).
  - by apply UpdateBoard_inv_init.
  - intros j t Hj. apply UpdateBoard_inv_step; [done|]. unfold BOARD_SIDE in *. lia.
  - exists (workBoard gol'). rewrite ret_bind. unfold set_board.
    rewrite Hd, Hp. split; [done|]. split; [done|].
    intros row col Hrc. rewrite Hcells by done.
    destruct (interior row col); [|done]. cbn [andb].
    rewrite (proj2 (Z.ltb_lt _ _)); [done|].
    unfold cell_index, in_board, BOARD_SIDE in *. lia.
Qed.

Lemma UpdateBoard_returns gol :
  boards_ok gol -> exists gol', UpdateBoard gol = Ok gol'.
Proof.
  intros [Hb Hw]. destruct (UpdateBoard_spec gol Hb Hw) as (wb & Heq & _).
  by eexists.
Qed.

(** Replaces the result [gol'] of a generation step [Hup] on well-formed
    boards [Hok] by what [UpdateBoard_spec] says it is. *)
Ltac UpdateBoard_result Hok Hup wb Hwb Hcells :=
  let Heq := fresh "Heq" in
  destruct (UpdateBoard_spec _ (proj1 Hok) (proj2 Hok)) as (wb & Heq & Hwb & Hcells);
  rewrite Heq in Hup; apply Ok_inj in Hup as <-;
  cbn [deltaTime simulationPaused board workBoard].

Lemma UpdateBoard_boards_ok gol gol' :
  boards_ok gol -> UpdateBoard gol = Ok gol' -> boards_ok gol'.
Proof. intros Hok Hup. UpdateBoard_result Hok Hup wb Hwb Hcells. by split. Qed.

Lemma UpdateBoard_commits gol gol' :
  boards_ok gol -> UpdateBoard gol = Ok gol' -> board gol' = workBoard gol'.
Proof. intros Hok Hup. by UpdateBoard_result Hok Hup wb Hwb Hcells. Qed.

Lemma UpdateBoard_fields gol gol' :
  boards_ok gol -> UpdateBoard gol = Ok gol' ->
  deltaTime gol' = deltaTime gol /\ simulationPaused gol' = simulationPaused gol.
Proof. intros Hok Hup. by UpdateBoard_result Hok Hup wb Hwb Hcells. Qed.

Lemma UpdateBoard_interior gol gol' row col :
  boards_ok gol -> UpdateBoard gol = Ok gol' -> interior row col = true ->
  cell (workBoard gol') row col = next_state (board gol) row col.
Proof.
  intros Hok Hup Hint. UpdateBoard_result Hok Hup wb Hwb Hcells.
  rewrite Hcells, Hint; [done|].
  apply interior_spec in Hint as [[? ?] [? ?]]. unfold in_board. lia.
Qed.

Lemma UpdateBoard_boundary gol gol' row col :
  boards_ok gol -> UpdateBoard gol = Ok gol' -> boundary row col ->
  cell (workBoard gol') row col = cell (workBoard gol) row col.
Proof.
  intros Hok Hup Hbd. UpdateBoard_result Hok Hup wb Hwb Hcells.
  rewrite Hcells by apply Hbd. by rewrite (boundary_not_interior _ _ Hbd).
Qed.

Lemma UpdateBoard_inv_kept gol gol' :
  game_inv gol -> UpdateBoard gol = Ok gol' ->
  game_inv gol' /\ boundary_dead (board gol').
Proof.
  intros [Hok Hdead] Hup.
  assert (boundary_dead (workBoard gol')) as Hdead'.
  { intros row col Hbd. rewrite (UpdateBoard_boundary _ _ _ _ Hok Hup Hbd).
    by apply Hdead. }
  split; [split|]; [by eapply UpdateBoard_boards_ok|done|].
  by rewrite (UpdateBoard_commits _ _ Hok Hup).
Qed.

Lemma UpdateBoard_all_dead gol gol' :
  game_inv gol -> all_dead (board gol) = true -> UpdateBoard gol = Ok gol' ->
  game_inv gol' /\ all_dead (board gol') = true.
Proof.
  intros Hinv Hdead Hup.
  destruct (UpdateBoard_inv_kept gol gol' Hinv Hup) as [Hinv' _].
  split; [done|]. destruct Hinv as [Hok Hbd].
  UpdateBoard_result Hok Hup wb Hwb Hcells.
  apply cells_all_dead; [done|]. intros row col Hrc. rewrite Hcells by done.
  destruct (interior row col) eqn:Hint.
  - apply next_state_all_dead; [done|]. intros row' col'.
    apply all_dead_cell; [apply Hok|done].
  - apply Hbd. split; [done|]. apply interior_false in Hint.
    unfold in_board in Hrc. lia.
Qed.

Lemma generations_all_dead n :
  forall gol, game_inv gol -> all_dead (board gol) = true ->
    exists gol', generations n gol = Ok gol' /\ all_dead (board gol') = true.
Proof.
  induction n as [|n IH]; intros gol Hinv Hdead; cbn [generations].
  - by exists gol.
  - destruct (UpdateBoard_returns gol) as [gol1 Hup]; [apply Hinv|].
    rewrite Hup, ret_bind.
    destruct (UpdateBoard_all_dead gol gol1 Hinv Hdead Hup) as [Hinv1 Hdead1].
    by apply IH.
Qed.

(** C7: at a boundary cell the rule engine writes nothing, and a generation
    step leaves the boundary entries of the working board as they were
    before the step. *)
Theorem boundary_cells_not_written (gol : gameOfLife_t) :
  board_ok (board gol) -> board_ok (workBoard gol) ->
  (forall row col, boundary row col -> ApplyLifeRule gol row col = Ok gol) /\
  exists gol',
    UpdateBoard gol = Ok gol' /\
    forall row col, boundary row col ->
      cell (workBoard gol') row col = cell (workBoard gol) row col.
Proof.
  intros Hb Hw. split.
  - intros row col Hbd. apply ApplyLifeRule_not_interior.
    by apply boundary_not_interior.
  - destruct (UpdateBoard_returns gol) as [gol' Hup]; [done|].
    exists gol'. split; [done|]. intros row col Hbd.
    by apply (UpdateBoard_boundary gol gol').
Qed.

Lemma boundary_cells_not_written_witness :
  ApplyLifeRule stale_corner 0 0 = Ok stale_corner /\
  exists gol', UpdateBoard stale_corner = Ok gol' /\ cell (workBoard gol') 0 0 = 1.
Proof.
  assert (boundary 0 0) as Hcorner.
  { split; [unfold in_board, BOARD_SIDE; lia|by left]. }
  destruct (boundary_cells_not_written stale_corner) as [Hrule (gol' & Hup & Hkept)];
    [board_ok_by_computation..|].
  split; [exact (Hrule 0 0 Hcorner)|].
  exists gol'. split; [exact Hup|]. rewrite (Hkept 0 0 Hcorner). reflexivity.
Defined.

(** ** Seeding the board *)

Lemma seed_index_row_col i :
  0 <= i < BOARD_SIDE * BOARD_SIDE ->
  in_board (GetColumnByIndex i) (GetRowByIndex i) /\
  seed_index (GetColumnByIndex i) (GetRowByIndex i) = i.
Proof.
  intros Hi. destruct (index_row_col i Hi) as [[? ?] Hidx].
  unfold in_board, seed_index, cell_index in *. tauto.
Qed.

Lemma seed_index_inj row col row' col' :
  in_board row col -> in_board row' col' ->
  seed_index row col = seed_index row' col' -> row = row' /\ col = col'.
Proof. unfold seed_index, in_board, BOARD_SIDE. lia. Qed.

Lemma seed_index_range row col :
  in_board row col -> 0 <= seed_index row col < BOARD_SIDE * BOARD_SIDE.
Proof. unfold seed_index, in_board, BOARD_SIDE. lia. Qed.

Lemma InitializeSimulation_inv_step random w0 j w :
  0 <= j < BOARD_SIDE * BOARD_SIDE ->
  InitializeSimulation_inv random w0 j w ->
  exists w',
    InitializeSimulation_pass random j w = Ok w' /\
    InitializeSimulation_inv random w0 (j + 1) w'.
Proof.
  intros Hj (bd & -> & Hok & Hcells).
  destruct (seed_index_row_col j Hj) as [Hin Hidx].
  set (m := GetColumnByIndex j) in *. set (q := GetRowByIndex j) in *.
  unfold InitializeSimulation_pass, take_random, seeded.
  cbn [game draws board set_game set_board gameColors backgroundColor
       gFullscreen delays deltaTime simulationPaused workBoard].
  assert (forall v,
    v = seed_cell random (draws w0 + Z.to_nat j) ->
    InitializeSimulation_inv random w0 (j + 1)
      (mkWorld (mkGameOfLife (deltaTime (game w0)) (simulationPaused (game w0))
                             (board_upd bd m q v) (workBoard (game w0)))
               (gameColors w0) (backgroundColor w0) (gFullscreen w0)
               (Datatypes.S (draws w0 + Z.to_nat j)) (delays w0))) as Hnext.
  { intros v Hv. exists (board_upd bd m q v). split_and!.
    - unfold seeded. f_equal. lia.
    - auto with boards.
    - intros row col Hrc. rewrite cell_board_upd by (done || apply Hrc).
      rewrite Hcells by done.
      destruct (decide (row = m /\ col = q)) as [[-> ->]|Hne].
      + rewrite Hidx. rewrite (proj2 (Z.ltb_lt j (j + 1))) by lia. exact Hv.
      + assert (seed_index row col <> j) as Hneq.
        { intros Heq. rewrite <- Hidx in Heq.
          by apply seed_index_inj in Heq. }
        destruct (Z.ltb_spec (seed_index row col) j),
                 (Z.ltb_spec (seed_index row col) (j + 1)); (done || lia). }
  destruct (to_uint8 (Z.rem (random (draws w0 + Z.to_nat j)%nat) 10) =? 0) eqn:Hdraw;
    rewrite store_ok, ret_bind by done;
    (eexists; split; [reflexivity|]);
    apply Hnext; unfold seed_cell; by rewrite Hdraw.
Qed.

(** [InitializeSimulation] returns; it calls [random] once per cell and
    writes every cell of the displayed board, and nothing else. *)
Lemma InitializeSimulation_spec random w :
  board_ok (board (game w)) ->
  exists bd,
    InitializeSimulation random w =
      Ok (seeded w bd (Z.to_nat (BOARD_SIDE * BOARD_SIDE))) /\
    board_ok bd /\
    forall row col, in_board row col ->
      cell bd row col = seed_cell random (draws w + Z.to_nat (seed_index row col)).
Proof.
  intros Hok. unfold InitializeSimulation, for_loop.
  destruct (for_range_invariant (InitializeSimulation_inv random w)
              (InitializeSimulation_pass random)
              (Z.to_nat (BOARD_SIDE * BOARD_SIDE - 0)) 0 w)
    as (w' & Hloop & Hinv).
  - exists (board (game w)). split_and!; [|done|].
    { unfold seeded. change (Z.to_nat 0) with 0%nat. rewrite Nat.add_0_r.
      by destruct w as [[] ?]. }
    intros row col Hrc. apply seed_index_range in Hrc.
    by rewrite (proj2 (Z.ltb_ge _ _)) by lia.
  - intros j t Hj. apply InitializeSimulation_inv_step. unfold BOARD_SIDE in *. lia.
  - replace (0 + Z.of_nat (Z.to_nat (BOARD_SIDE * BOARD_SIDE - 0)))
      with (BOARD_SIDE * BOARD_SIDE) in Hinv by (unfold BOARD_SIDE; lia).
    destruct Hinv as (bd & -> & Hbd & Hcells).
    exists bd. split_and!; [exact Hloop|exact Hbd|].
    intros row col Hrc. rewrite Hcells by exact Hrc.
    apply seed_index_range in Hrc.
    by rewrite (proj2 (Z.ltb_lt _ _)) by lia.
Qed.

(** [InitializeSimulation] in [main] returns a state the loop can start in. *)
Lemma main_start random :
  exists w0,
    InitializeSimulation random main_world = Ok w0 /\
    game_inv (game w0) /\
    simulationPaused (game w0) = false /\
    deltaTime (game w0) = DEFAULT_DELTA_TIME.
Proof.
  destruct (InitializeSimulation_spec random main_world zero_board_ok)
    as (bd & Heq & Hbd & _).
  eexists. split; [exact Heq|]. split; [|by split].
  split; [split; [exact Hbd|exact zero_board_ok]|exact boundary_dead_zero_board].
Qed.

(** C10: [InitializeSimulation] draws once per cell, every draw taken modulo
    10 lies in 0..9, a cell is set to 1 when its draw is 0 and to 0 otherwise,
    and no two cells share a draw.  (How the draws are distributed is the
    C library's matter.) *)
Theorem InitializeSimulation_seeds (random : nat -> Z) (w : World) :
  (forall k, 0 <= random k) ->
  board_ok (board (game w)) ->
  exists w',
    InitializeSimulation random w = Ok w' /\
    draws w' = (draws w + Z.to_nat (BOARD_SIDE * BOARD_SIDE))%nat /\
    workBoard (game w') = workBoard (game w) /\
    (forall row col, in_board row col ->
       let draw := random (draws w + Z.to_nat (seed_index row col))%nat mod 10 in
       0 <= seed_index row col < BOARD_SIDE * BOARD_SIDE /\
       0 <= draw <= 9 /\
       cell (board (game w')) row col = (if draw =? 0 then 1 else 0)) /\
    (forall row col row' col', in_board row col -> in_board row' col' ->
       seed_index row col = seed_index row' col' -> row = row' /\ col = col').
Proof.
  intros Hrandom Hok.
  destruct (InitializeSimulation_spec random w Hok) as (bd & Heq & Hbd & Hcells).
  exists (seeded w bd (Z.to_nat (BOARD_SIDE * BOARD_SIDE))).
  split; [exact Heq|]. split; [reflexivity|]. split; [reflexivity|]. split.
  - intros row col Hrc. cbv zeta.
    change (board (game (seeded w bd (Z.to_nat (BOARD_SIDE * BOARD_SIDE))))) with bd.
    split; [by apply seed_index_range|].
    pose proof (Z.mod_pos_bound
                  (random (draws w + Z.to_nat (seed_index row col))%nat) 10) as Hmod.
    split; [lia|].
    rewrite Hcells by done. unfold seed_cell, to_uint8.
    rewrite Z.rem_mod_nonneg by (done || lia).
    by rewrite (Z.mod_small (_ mod 10) 256) by lia.
  - intros row col row' col'. apply seed_index_inj.
Qed.

Lemma InitializeSimulation_seeds_witness :
  exists w',
    InitializeSimulation Z.of_nat main_world = Ok w' /\
    cell (board (game w')) 0 0 = 1 /\ cell (board (game w')) 1 0 = 0.
Proof.
  destruct (InitializeSimulation_seeds Z.of_nat main_world)
    as (w' & Hinit & _ & _ & Hcells & _); [intros k; lia|board_ok_by_computation|].
  exists w'. split; [exact Hinit|].
  assert (in_board 0 0 /\ in_board 1 0) as [H00 H10]
    by (unfold in_board, BOARD_SIDE; lia).
  split.
  - exact (proj2 (proj2 (Hcells 0 0 H00))).
  - exact (proj2 (proj2 (Hcells 1 0 H10))).
Defined.

(** ** What a step of the loop does to the game *)

Lemma SimulationLoop_tick_effect w w' :
  SimulationLoop_tick w = Ok w' -> game_effect (game w) (game w').
Proof.
  unfold SimulationLoop_tick. destruct (simulationPaused (game w)); cbn [negb].
  - intros [= <-]. by apply boards_kept.
  - intros Hup. apply bind_Ok in Hup as (gol & Hup & [= <-]). by apply generation.
Qed.

Lemma EvaluateKey_effect sym w w' :
  EvaluateKey sym w = Ok w' ->
  board (game w') = board (game w) /\ workBoard (game w') = workBoard (game w).
Proof.
  destruct sym; cbn [EvaluateKey]; try (intros [= <-]; done).
  destruct (negb _); intros [= <-]; done.
Qed.

Lemma handle_event_effect random event w w' :
  handle_event random event w = Ok w' -> game_effect (game w) (game w').
Proof.
  destruct event as [|sym|button|]; cbn [handle_event].
  - done.
  - intros Hkey. apply EvaluateKey_effect in Hkey as [? ?]. by apply boards_kept.
  - unfold take_random. destruct (button =? SDL_BUTTON_LEFT);
      cbn [game set_color_at color_at draws gameColors backgroundColor];
      intros Hup; apply bind_Ok in Hup as (gol & Hup & [= <-]);
      by apply generation.
  - intros [= <-]. by apply boards_kept.
Qed.

Lemma SimulationLoop_delay_effect w w' :
  SimulationLoop_delay w = Ok w' -> game w' = game w.
Proof.
  unfold SimulationLoop_delay. destruct (_ =? 0); [done|]. by intros [= <-].
Qed.

Lemma run_step_effect random step w w' :
  run_step random step w = Ok w' -> game_effect (game w) (game w').
Proof.
  destruct step as [|event|]; cbn [run_step].
  - apply SimulationLoop_tick_effect.
  - apply handle_event_effect.
  - intros Hd. apply SimulationLoop_delay_effect in Hd as ->. by apply boards_kept.
Qed.

Lemma game_effect_inv gol gol' :
  game_inv gol -> game_effect gol gol' -> game_inv gol'.
Proof.
  intros Hinv [Hb Hw|Hup].
  - destruct Hinv as [[? ?] ?]. unfold game_inv, boards_ok. by rewrite Hb, Hw.
  - by apply (UpdateBoard_inv_kept gol gol').
Qed.

Lemma game_effect_boundary gol gol' :
  game_inv gol -> boundary_dead (board gol) -> game_effect gol gol' ->
  boundary_dead (board gol').
Proof.
  intros Hinv Hdead [Hb Hw|Hup].
  - by rewrite Hb.
  - by apply (UpdateBoard_inv_kept gol gol').
Qed.

Lemma run_steps_inv random steps :
  forall w w', game_inv (game w) -> run_steps random steps w = Ok w' ->
    game_inv (game w') /\
    (boundary_dead (board (game w)) -> boundary_dead (board (game w'))).
Proof.
  induction steps as [|step steps IH]; intros w w' Hinv; cbn [run_steps].
  - by intros [= <-].
  - intros Hrun. apply bind_Ok in Hrun as (w1 & Hstep & Hrun).
    apply run_step_effect in Hstep.
    destruct (IH w1 w' (game_effect_inv _ _ Hinv Hstep) Hrun) as [Hinv' Hdead'].
    split; [done|]. intros Hdead. apply Hdead'.
    by apply (game_effect_boundary (game w)).
Qed.

Lemma main_steps_inv random steps w :
  main_steps random steps = Ok w -> game_inv (game w).
Proof.
  unfold main_steps. destruct (main_start random) as (w0 & -> & Hinv & _).
  rewrite ret_bind. intros Hrun. by apply (run_steps_inv random steps w0 w).
Qed.

(** ** Runs as sequences of steps *)

Lemma program_trace_head steps :
  program_trace steps -> steps <> [] -> exists rest, steps = Tick :: rest.
Proof.
  intros [frames [k Hk]] Hne. destruct steps as [|step rest]; [done|].
  destruct frames as [|events frames]; [done|].
  cbn in Hk. injection Hk as <- _. by eexists.
Qed.






(** ** The loop while paused *)

(** C2: while the simulation is paused, any number of passes through the
    generation step at the head of the loop return and leave the state, and
    so the displayed board, as it is. *)
Theorem paused_ticks_keep_board (n : nat) (w : World) :
  simulationPaused (game w) = true ->
  ticks n w = Ok w /\
  forall w', ticks n w = Ok w' -> board (game w') = board (game w).
Proof.
  intros Hpaused.
  assert (ticks n w = Ok w) as Hticks.
  { induction n as [|n IH]; [done|].
    cbn [ticks]. unfold SimulationLoop_tick. rewrite Hpaused. cbn [negb].
    by rewrite ret_bind. }
  split; [done|]. intros w'. rewrite Hticks. by intros [= <-].
Qed.

Lemma paused_ticks_keep_board_witness : ticks 3 paused_world = Ok paused_world.
Proof. apply (paused_ticks_keep_board 3 paused_world). reflexivity. Defined.

(** ** The speed keys *)

(** C6: a '-' key event takes 1 off the tick rate and a '+' key event adds 1,
    with no clamping: the rate is a [uint8_t], so from 0 the decrement gives
    255 and from 255 the increment gives 0 (arithmetic modulo 256). *)
Theorem speed_keys_wrap (random : nat -> Z) (w : World) :
  0 <= deltaTime (game w) < 256 ->
  exists wm wp,
    handle_event random (SDL_KEYDOWN SDLK_MINUS) w = Ok wm /\
    handle_event random (SDL_KEYDOWN SDLK_PLUS) w = Ok wp /\
    deltaTime (game wm) = (deltaTime (game w) - 1) mod 256 /\
    deltaTime (game wp) = (deltaTime (game w) + 1) mod 256 /\
    deltaTime (game wm) =
      (if deltaTime (game w) =? 0 then 255 else deltaTime (game w) - 1) /\
    deltaTime (game wp) =
      (if deltaTime (game w) =? 255 then 0 else deltaTime (game w) + 1).
Proof.
  intros Hrange. cbn [handle_event EvaluateKey]. do 2 eexists.
  split; [reflexivity|]. split; [reflexivity|].
  cbn [game set_game deltaTime set_deltaTime]. unfold to_uint8.
  split; [done|]. split; [done|]. split.
  - destruct (Z.eqb_spec (deltaTime (game w)) 0) as [->|Hne]; [done|].
    apply Z.mod_small. lia.
  - destruct (Z.eqb_spec (deltaTime (game w)) 255) as [->|Hne]; [done|].
    apply Z.mod_small. lia.
Qed.

Lemma speed_keys_wrap_witness :
  exists wm wp,
    handle_event (fun _ => 0) (SDL_KEYDOWN SDLK_MINUS)
      (set_game main_world (set_deltaTime (game main_world) 0)) = Ok wm /\
    handle_event (fun _ => 0) (SDL_KEYDOWN SDLK_PLUS)
      (set_game main_world (set_deltaTime (game main_world) 255)) = Ok wp /\
    deltaTime (game wm) = 255 /\ deltaTime (game wp) = 0.
Proof.
  destruct (speed_keys_wrap (fun _ => 0)
              (set_game main_world (set_deltaTime (game main_world) 0)))
    as (wm & _ & Hm & _ & _ & _ & Hdm & _); [cbn; lia|].
  destruct (speed_keys_wrap (fun _ => 0)
              (set_game main_world (set_deltaTime (game main_world) 255)))
    as (_ & wp & _ & Hp & _ & _ & _ & Hdp); [cbn; lia|].
  exists wm, wp. split; [exact Hm|]. split; [exact Hp|].
  split; [exact Hdm|exact Hdp].
Defined.

(** ** Mouse clicks *)

(** C3: a mouse-button-down event runs the whole generation step on the game,
    whatever the pause flag is: the rule over the interior cells, then the
    working board committed to the displayed one.  The flag is not read and
    not changed. *)
Theorem mouse_click_runs_generation (random : nat -> Z) (button : Z) (w : World) :
  board_ok (board (game w)) -> board_ok (workBoard (game w)) ->
  exists w',
    handle_event random (SDL_MOUSEBUTTONDOWN button) w = Ok w' /\
    UpdateBoard (game w) = Ok (game w') /\
    simulationPaused (game w') = simulationPaused (game w) /\
    board (game w') = workBoard (game w') /\
    forall row col, interior row col = true ->
      cell (board (game w')) row col = next_state (board (game w)) row col.
Proof.
  intros Hb Hw.
  destruct (UpdateBoard_returns (game w)) as [gol Hup]; [done|].
  assert (boards_ok (game w)) as Hok by done.
  assert (exists w', handle_event random (SDL_MOUSEBUTTONDOWN button) w = Ok w' /\
                     game w' = gol) as (w' & Hclick & Hgame).
  { cbn [handle_event]. unfold take_random.
    destruct (button =? SDL_BUTTON_LEFT);
      cbn [game set_color_at color_at draws gameColors backgroundColor];
      rewrite Hup, ret_bind; by eexists. }
  exists w'. rewrite Hgame. split_and!; try done.
  - by apply (UpdateBoard_fields (game w) gol).
  - by apply (UpdateBoard_commits (game w) gol).
  - intros row col Hint. rewrite (UpdateBoard_commits (game w) gol) by done.
    by apply UpdateBoard_interior.
Qed.

Lemma mouse_click_runs_generation_witness :
  simulationPaused (game paused_lonely) = true /\
  cell (board (game paused_lonely)) 2 2 = 1 /\
  exists w',
    handle_event (fun _ => 0) (SDL_MOUSEBUTTONDOWN SDL_BUTTON_LEFT) paused_lonely
      = Ok w' /\
    cell (board (game w')) 2 2 = 0.
Proof.
  split; [reflexivity|]. split; [vm_compute; reflexivity|].
  destruct (mouse_click_runs_generation (fun _ => 0) SDL_BUTTON_LEFT paused_lonely)
    as (w' & Hclick & _ & _ & _ & Hcells); [board_ok_by_computation..|].
  exists w'. split; [exact Hclick|].
  rewrite (Hcells 2 2) by reflexivity. vm_compute. reflexivity.
Defined.

(** C9: a left click sets red, green and blue of the life colour to the three
    bytes drawn, in this order, and keeps its alpha and the background
    colour; a right click does the same on the background colour and keeps
    the life colour. *)
Theorem mouse_click_colors (random : nat -> Z) (w : World) :
  (forall k, 0 <= random k) ->
  board_ok (board (game w)) -> board_ok (workBoard (game w)) ->
  let drawn :=
    mkColor (random (draws w) mod 256)
            (random (Datatypes.S (draws w)) mod 256)
            (random (Datatypes.S (Datatypes.S (draws w))) mod 256) in
  exists wl wr,
    handle_event random (SDL_MOUSEBUTTONDOWN SDL_BUTTON_LEFT) w = Ok wl /\
    handle_event random (SDL_MOUSEBUTTONDOWN SDL_BUTTON_RIGHT) w = Ok wr /\
    gameColors wl = drawn (a (gameColors w)) /\
    backgroundColor wl = backgroundColor w /\
    backgroundColor wr = drawn (a (backgroundColor w)) /\
    gameColors wr = gameColors w /\
    0 <= r (gameColors wl) < 256 /\ 0 <= g (gameColors wl) < 256 /\
    0 <= b (gameColors wl) < 256.
Proof.
  intros Hrandom Hb Hw drawn.
  destruct (UpdateBoard_returns (game w)) as [gol Hup]; [done|].
  assert (forall k, to_uint8 (Z.rem (random k) 256) = random k mod 256) as Hbyte.
  { intros k. unfold to_uint8. rewrite Z.rem_mod_nonneg by (done || lia).
    apply Z.mod_mod. lia. }
  cbn [handle_event]. unfold take_random.
  change (SDL_BUTTON_LEFT =? SDL_BUTTON_LEFT) with true.
  change (SDL_BUTTON_RIGHT =? SDL_BUTTON_LEFT) with false.
  cbn [game set_color_at color_at draws gameColors backgroundColor
       set_r set_g set_b r g b a].
  rewrite Hup, !ret_bind, !Hbyte. do 2 eexists.
  split; [reflexivity|]. split; [reflexivity|].
  cbn [gameColors backgroundColor set_game r g b].
  split_and!; try reflexivity; apply Z.mod_pos_bound; lia.
Qed.

Lemma mouse_click_colors_witness :
  exists wl wr,
    handle_event Z.of_nat (SDL_MOUSEBUTTONDOWN SDL_BUTTON_LEFT)
      click_world = Ok wl /\
    handle_event Z.of_nat (SDL_MOUSEBUTTONDOWN SDL_BUTTON_RIGHT)
      click_world = Ok wr /\
    gameColors wl = mkColor 7 8 9 255 /\ backgroundColor wl = mkColor 0 0 0 255 /\
    backgroundColor wr = mkColor 7 8 9 255 /\ gameColors wr = mkColor 255 127 0 255.
Proof.
  destruct (mouse_click_colors Z.of_nat click_world)
    as (wl & wr & Hl & Hr & Hgl & Hbl & Hbr & Hgr & _);
    [intros k; lia|board_ok_by_computation..|].
  exists wl, wr. split; [exact Hl|]. split; [exact Hr|].
  split; [exact Hgl|]. split; [exact Hbl|]. split; [exact Hbr|exact Hgr].
Defined.

(** ** Dead boards stay dead *)

(** C4: in every state of a run (reached from the start of [main] by steps
    of the loop) whose displayed board is all dead, the board is all dead
    after any number of generation steps, boundary cells included. *)
Theorem dead_board_stays_dead (random : nat -> Z) (steps : list loop_step)
    (w : World) (n : nat) :
  main_steps random steps = Ok w ->
  all_dead (board (game w)) = true ->
  exists gol, generations n (game w) = Ok gol /\ all_dead (board gol) = true.
Proof.
  intros Hrun Hdead. apply generations_all_dead; [|done].
  by apply (main_steps_inv random steps).
Qed.

Lemma dead_board_stays_dead_witness :
  exists gol,
    generations 2 (game (returned main_world (main_steps (fun _ => 1) []))) = Ok gol /\
    all_dead (board gol) = true.
Proof.
  apply (dead_board_stays_dead (fun _ => 1) []).
  - apply Ok_returned. unfold main_steps.
    destruct (main_start (fun _ => 1)) as (w0 & -> & _). by exists w0.
  - vm_compute. reflexivity.
Defined.

(** ** The boundary of the displayed board *)

(** C8: the working board is still all zero when the loop starts, its
    boundary entries hold 0 at every point of a run, and from the first step
    of a run on (the generation step of the first pass, which returns) every
    boundary cell of the displayed board is dead. *)
Theorem boundary_dead_after_first_step (random : nat -> Z) :
  (exists w0, InitializeSimulation random main_world = Ok w0 /\
              workBoard (game w0) = zero_board) /\
  (exists w1, main_steps random [Tick] = Ok w1) /\
  (forall steps w, main_steps random steps = Ok w ->
     boundary_dead (workBoard (game w))) /\
  (forall steps w, program_trace steps -> steps <> [] ->
     main_steps random steps = Ok w -> boundary_dead (board (game w))).
Proof.
  split_and!.
  - destruct (InitializeSimulation_spec random main_world zero_board_ok)
      as (bd & Heq & _).
    eexists. split; [exact Heq|reflexivity].
  - unfold main_steps. destruct (main_start random) as (w0 & -> & Hinv & Hrun & _).
    rewrite ret_bind. cbn [run_steps run_step]. unfold SimulationLoop_tick.
    rewrite Hrun. cbn [negb].
    destruct (UpdateBoard_returns (game w0)) as [gol ->]; [apply Hinv|].
    by eexists.
  - intros steps w Hrun. by apply (main_steps_inv random steps).
  - intros steps w Htrace Hne.
    destruct (program_trace_head steps Htrace Hne) as [rest ->].
    unfold main_steps. destruct (main_start random) as (w0 & -> & Hinv & Hrun & _).
    rewrite ret_bind. cbn [run_steps run_step]. unfold SimulationLoop_tick.
    rewrite Hrun. cbn [negb]. intros Hsteps.
    apply bind_Ok in Hsteps as (w1 & Htick & Hsteps).
    apply bind_Ok in Htick as (gol & Hup & [= <-]).
    destruct (UpdateBoard_inv_kept (game w0) gol Hinv Hup) as [Hinv1 Hdead1].
    by apply (run_steps_inv random rest (set_game w0 gol) w).
Qed.

(** ** The delay *)

Lemma SimulationLoop_tick_delays w w' :
  SimulationLoop_tick w = Ok w' -> delays w' = delays w.
Proof.
  unfold SimulationLoop_tick. destruct (negb _).
  - intros Hup. by apply bind_Ok in Hup as (gol & _ & [= <-]).
  - by intros [= <-].
Qed.

Lemma handle_event_delays random event w w' :
  handle_event random event w = Ok w' -> delays w' = delays w.
Proof.
  destruct event as [|sym|button|]; cbn [handle_event].
  - done.
  - destruct sym; cbn [EvaluateKey]; try (intros [= <-]; done).
    destruct (negb _); intros [= <-]; done.
  - unfold take_random. destruct (button =? SDL_BUTTON_LEFT);
      cbn [game set_color_at color_at draws gameColors backgroundColor delays];
      intros Hup; by apply bind_Ok in Hup as (gol & _ & [= <-]).
  - by intros [= <-].
Qed.

Lemma poll_events_delays random events :
  forall w w', poll_events random events w = Ok w' -> delays w' = delays w.
Proof.
  induction events as [|event events IH]; intros w w'; cbn [poll_events].
  - by intros [= <-].
  - intros Hpoll. apply bind_Ok in Hpoll as (w1 & Hevent & Hpoll).
    rewrite (IH _ _ Hpoll). by apply (handle_event_delays random event).
Qed.

Lemma run_steps_cons random step steps w :
  run_steps random (step :: steps) w =
    run_step random step w ≫= run_steps random steps.
Proof. reflexivity. Qed.

Lemma SimulationLoop_cons random events frames w :
  SimulationLoop random (events :: frames) w =
    SimulationLoop_iteration random events w ≫= SimulationLoop random frames.
Proof. reflexivity. Qed.

Lemma poll_events_replicate random event n w :
  poll_events random (replicate n event) w =
    run_steps random (replicate n (Handle event)) w.
Proof.
  revert w. induction n as [|n IH]; intros w; [reflexivity|].
  cbn [replicate poll_events run_steps run_step].
  destruct (handle_event random event w) as [w1| |]; [|reflexivity..].
  rewrite !ret_bind. apply IH.
Qed.

(** [n] '-' key events in a row. *)
Lemma minus_keys random n :
  forall w, 0 <= deltaTime (game w) < 256 ->
    exists w',
      poll_events random (replicate n (SDL_KEYDOWN SDLK_MINUS)) w = Ok w' /\
      deltaTime (game w') = (deltaTime (game w) - Z.of_nat n) mod 256.
Proof.
  induction n as [|n IH]; intros w Hrange.
  - exists w. split; [done|]. rewrite Z.mod_small by lia. lia.
  - cbn [replicate poll_events handle_event EvaluateKey]. rewrite ret_bind.
    destruct (IH (set_game w (set_deltaTime (game w)
                                (to_uint8 (deltaTime (game w) - 1)))))
      as (w' & Hpoll & Hrate).
    { cbn [game set_game deltaTime set_deltaTime]. apply Z.mod_pos_bound. lia. }
    exists w'. split; [done|]. rewrite Hrate.
    cbn [game set_game deltaTime set_deltaTime]. unfold to_uint8.
    rewrite Zminus_mod_idemp_l. f_equal. lia.
Qed.

(** A pass that polls one '-' key event, in a running game: it ends in the
    delay, with the rate one down. *)
Lemma minus_pass random w :
  game_inv (game w) -> simulationPaused (game w) = false ->
  exists w1,
    SimulationLoop_iteration random [SDL_KEYDOWN SDLK_MINUS] w =
      SimulationLoop_delay w1 /\
    game_inv (game w1) /\
    simulationPaused (game w1) = false /\
    deltaTime (game w1) = to_uint8 (deltaTime (game w) - 1).
Proof.
  intros Hinv Hrun.
  destruct (UpdateBoard_returns (game w)) as [gol Hup]; [apply Hinv|].
  destruct (UpdateBoard_fields (game w) gol) as [Hrate Hpaused];
    [apply Hinv|exact Hup|].
  destruct (UpdateBoard_inv_kept (game w) gol Hinv Hup) as [Hinv1 _].
  exists (set_game (set_game w gol)
            (set_deltaTime gol (to_uint8 (deltaTime gol - 1)))).
  split_and!.
  - unfold SimulationLoop_iteration, SimulationLoop_tick.
    rewrite Hrun. cbn [negb]. rewrite Hup, !ret_bind. reflexivity.
  - exact Hinv1.
  - cbn [game set_game set_deltaTime simulationPaused]. by rewrite Hpaused.
  - cbn [game set_game set_deltaTime deltaTime]. by rewrite Hrate.
Qed.

(** As many passes with one '-' key event each as the rate counts: the last
    one divides by zero. *)
Lemma minus_passes random n :
  forall w,
    game_inv (game w) -> simulationPaused (game w) = false ->
    deltaTime (game w) = Z.of_nat (Datatypes.S n) -> (n < 255)%nat ->
    SimulationLoop random (replicate (Datatypes.S n) [SDL_KEYDOWN SDLK_MINUS]) w
      = Faulted DivisionByZero.
Proof.
  induction n as [|n IH]; intros w Hinv Hrun Hrate Hn;
    cbn [replicate]; rewrite SimulationLoop_cons;
    destruct (minus_pass random w Hinv Hrun) as (w1 & -> & Hinv1 & Hrun1 & Hrate1);
    rewrite Hrate in Hrate1; unfold to_uint8 in Hrate1;
    rewrite Z.mod_small in Hrate1 by lia;
    unfold SimulationLoop_delay; rewrite Hrate1.
  - reflexivity.
  - destruct (Z.eqb_spec (Z.of_nat (Datatypes.S (Datatypes.S n)) - 1) 0)
      as [Hz|_]; [lia|].
    rewrite ret_bind. apply IH; cbn [game set_delays]; [done|done|lia|lia].
Qed.

(** The delay at a rate other than 0: [SDL_Delay] is asked for
    [1000 / deltaTime] milliseconds and nothing else changes. *)
Lemma SimulationLoop_delay_asks w :
  deltaTime (game w) <> 0 ->
  SimulationLoop_delay w =
    Ok (set_delays w (Z.quot 1000 (deltaTime (game w)) :: delays w)).
Proof.
  intros Hrate. unfold SimulationLoop_delay.
  by destruct (Z.eqb_spec (deltaTime (game w)) 0).
Qed.

(** The head of a pass on well-formed boards returns and keeps the rate and
    the delays. *)
Lemma SimulationLoop_tick_returns w :
  boards_ok (game w) ->
  exists v,
    SimulationLoop_tick w = Ok v /\
    deltaTime (game v) = deltaTime (game w) /\ delays v = delays w.
Proof.
  intros Hok. unfold SimulationLoop_tick.
  destruct (simulationPaused (game w)); cbn [negb].
  - by exists w.
  - destruct (UpdateBoard_returns (game w) Hok) as [gol Hup].
    destruct (UpdateBoard_fields (game w) gol Hok Hup) as [Hrate _].
    rewrite Hup, ret_bind. by eexists.
Qed.

(** C5: every pass of the loop asks for a delay of [1000 / deltaTime]
    milliseconds: the delay step on a rate other than 0 returns with this
    request recorded; a pass whose generation step and events have returned
    ends with this request, at the rate the events have left; from every
    state of a run with a rate other than 0 a pass without events returns
    with it, and the first pass of the program asks for [1000 / 60]; a pass
    that returns has asked for it.  Nothing guards the division, which is
    undefined when the rate is 0; and the run that polls 60 '-' key events,
    all in its first pass or one in each of its first 60 passes, gets to the
    delay with the rate 60 brought down to 0. *)
Theorem delay_divides_by_tick_rate (random : nat -> Z) :
  (forall w, deltaTime (game w) <> 0 ->
     SimulationLoop_delay w =
       Ok (set_delays w (Z.quot 1000 (deltaTime (game w)) :: delays w))) /\
  (forall events w v1 v2,
     SimulationLoop_tick w = Ok v1 -> poll_events random events v1 = Ok v2 ->
     deltaTime (game v2) <> 0 ->
     SimulationLoop_iteration random events w =
       Ok (set_delays v2 (Z.quot 1000 (deltaTime (game v2)) :: delays v2))) /\
  (forall steps w, main_steps random steps = Ok w -> deltaTime (game w) <> 0 ->
     exists w',
       SimulationLoop_iteration random [] w = Ok w' /\
       delays w' = Z.quot 1000 (deltaTime (game w)) :: delays w) /\
  (exists w,
     main random [[]] = Ok w /\ delays w = [Z.quot 1000 DEFAULT_DELTA_TIME]) /\
  (forall events w w', SimulationLoop_iteration random events w = Ok w' ->
     deltaTime (game w') <> 0 /\
     delays w' = Z.quot 1000 (deltaTime (game w')) :: delays w) /\
  (forall w, deltaTime (game w) = 0 ->
     SimulationLoop_delay w = Faulted DivisionByZero) /\
  (exists w,
     main_steps random (Tick :: replicate 60 (Handle (SDL_KEYDOWN SDLK_MINUS)))
       = Ok w /\
     deltaTime (game w) = 0) /\
  main random [replicate 60 (SDL_KEYDOWN SDLK_MINUS)] = Faulted DivisionByZero /\
  main random (replicate 60 [SDL_KEYDOWN SDLK_MINUS]) = Faulted DivisionByZero.
Proof.
  destruct (main_start random) as (w0 & Hinit & Hinv & Hrun & Hrate).
  destruct (UpdateBoard_returns (game w0)) as [gol Hup]; [apply Hinv|].
  destruct (UpdateBoard_fields (game w0) gol) as [Hrate' _]; [apply Hinv|exact Hup|].
  assert (SimulationLoop_tick w0 = Ok (set_game w0 gol)) as Htick.
  { unfold SimulationLoop_tick. rewrite Hrun. cbn [negb]. by rewrite Hup, ret_bind. }
  destruct (minus_keys random 60 (set_game w0 gol)) as (w2 & Hpoll & Hzero).
  { cbn [game set_game]. rewrite Hrate', Hrate. unfold DEFAULT_DELTA_TIME. lia. }
  cbn [game set_game] in Hzero. rewrite Hrate', Hrate in Hzero.
  change ((DEFAULT_DELTA_TIME - Z.of_nat 60) mod 256) with 0 in Hzero.
  split_and!.
  - exact SimulationLoop_delay_asks.
  - intros events w v1 v2 Hv1 Hv2 Hne. unfold SimulationLoop_iteration.
    rewrite Hv1, ret_bind, Hv2, ret_bind. by apply SimulationLoop_delay_asks.
  - intros steps w Hsteps Hne.
    destruct (SimulationLoop_tick_returns w) as (v & Hv & Hvrate & Hvdelays);
      [apply (main_steps_inv random steps w Hsteps)|].
    eexists. split.
    + unfold SimulationLoop_iteration. rewrite Hv, ret_bind.
      cbn [poll_events]. rewrite ret_bind.
      apply SimulationLoop_delay_asks. by rewrite Hvrate.
    + cbn [delays set_delays]. by rewrite Hvrate, Hvdelays.
  - destruct (InitializeSimulation_spec random main_world zero_board_ok)
      as (bd & Hseed & _).
    rewrite Hinit in Hseed. apply Ok_inj in Hseed.
    assert (delays w0 = []) as Hnone by (by rewrite Hseed).
    eexists. split.
    + unfold main. rewrite Hinit, ret_bind, SimulationLoop_cons.
      unfold SimulationLoop_iteration. rewrite Htick, ret_bind.
      cbn [poll_events]. rewrite ret_bind.
      rewrite SimulationLoop_delay_asks
        by (cbn [game set_game]; rewrite Hrate', Hrate; discriminate).
      rewrite ret_bind. reflexivity.
    + cbn [delays set_delays set_game game]. by rewrite Hrate', Hrate, Hnone.
  - intros events w w' Hpass. unfold SimulationLoop_iteration in Hpass.
    apply bind_Ok in Hpass as (v1 & Hv1 & Hpass).
    apply bind_Ok in Hpass as (v2 & Hv2 & Hdelay).
    apply SimulationLoop_tick_delays in Hv1. apply poll_events_delays in Hv2.
    unfold SimulationLoop_delay in Hdelay.
    destruct (Z.eqb_spec (deltaTime (game v2)) 0) as [|Hne]; [discriminate Hdelay|].
    injection Hdelay as <-. cbn [game set_delays delays]. split; [exact Hne|].
    by rewrite Hv2, Hv1.
  - intros w Hzero'. unfold SimulationLoop_delay. by rewrite Hzero'.
  - exists w2. split; [|exact Hzero]. unfold main_steps.
    rewrite Hinit, ret_bind, run_steps_cons. cbn [run_step].
    rewrite Htick, ret_bind, <- poll_events_replicate. exact Hpoll.
  - unfold main. rewrite Hinit, ret_bind, SimulationLoop_cons.
    unfold SimulationLoop_iteration.
    rewrite Htick, ret_bind, Hpoll, ret_bind.
    unfold SimulationLoop_delay. by rewrite Hzero.
  - unfold main. rewrite Hinit, ret_bind.
    apply (minus_passes random 59 w0 Hinv Hrun); [exact Hrate|lia].
Qed.

(** ** Further properties of the rule engine and the handlers *)

(** X1: for a live interior cell of a well-formed game the rule engine
    returns and writes what the table gives for the number of live cells
    among the 8 neighbours: dead below 2 and above 3, alive for 2 and 3. *)
Theorem live_cell_follows_table (gol : gameOfLife_t) (row col : Z) :
  board_ok (board gol) -> board_ok (workBoard gol) ->
  interior row col = true -> alive (board gol) row col = 1 ->
  exists gol',
    ApplyLifeRule gol row col = Ok gol' /\
    board gol' = board gol /\
    cell (workBoard gol') row col =
      (if (live_neighbours (board gol) row col <? 2)
          || (live_neighbours (board gol) row col >? 3)
       then 0 else 1).
Proof.
  intros Hb Hw Hint Hlive. rewrite ApplyLifeRule_interior by done.
  eexists. split; [reflexivity|]. split; [reflexivity|].
  cbn [workBoard set_workBoard]. apply interior_spec in Hint as [[? ?] [? ?]].
  rewrite cell_board_upd by (done || unfold in_board; lia).
  rewrite decide_True by done. by apply next_state_live_cell.
Qed.

Lemma live_cell_follows_table_witness :
  exists gol',
    ApplyLifeRule live_with_two 2 2 = Ok gol' /\
    board gol' = board live_with_two /\
    cell (workBoard gol') 2 2 = 1.
Proof.
  apply (live_cell_follows_table live_with_two 2 2);
    [board_ok_by_computation..|reflexivity|vm_compute; reflexivity].
Defined.

(** X2: for a dead interior cell of a well-formed game the rule engine
    writes alive exactly when 3 or 4 of the 8 neighbours are alive. *)
Theorem dead_cell_needs_three_or_four (gol : gameOfLife_t) (row col : Z) :
  board_ok (board gol) -> board_ok (workBoard gol) ->
  interior row col = true -> cell (board gol) row col = 0 ->
  exists gol',
    ApplyLifeRule gol row col = Ok gol' /\
    cell (workBoard gol') row col =
      (if (live_neighbours (board gol) row col <? 3)
          || (live_neighbours (board gol) row col >? 4)
       then 0 else 1).
Proof.
  intros Hb Hw Hint Hdead. rewrite ApplyLifeRule_interior by done.
  eexists. split; [reflexivity|].
  cbn [workBoard set_workBoard]. apply interior_spec in Hint as [[? ?] [? ?]].
  rewrite cell_board_upd by (done || unfold in_board; lia).
  rewrite decide_True by done. apply next_state_dead_cell.
  unfold alive. by rewrite Hdead.
Qed.

Lemma dead_cell_needs_three_or_four_witness :
  exists gol',
    ApplyLifeRule (mkGameOfLife 60 false four_neighbours zero_board) 2 2 = Ok gol' /\
    cell (workBoard gol') 2 2 = 1.
Proof.
  apply (dead_cell_needs_three_or_four
           (mkGameOfLife 60 false four_neighbours zero_board) 2 2);
    [board_ok_by_computation..|reflexivity|vm_compute; reflexivity].
Defined.

(** X3: a generation step on well-formed boards stays inside the arrays and
    returns; it keeps the tick rate and the pause flag, leaves the displayed
    board equal to the working board, and every interior cell holds the value
    the rule gives on the displayed board as it was before the step. *)
Theorem UpdateBoard_stays_in_bounds (gol : gameOfLife_t) :
  board_ok (board gol) -> board_ok (workBoard gol) ->
  exists gol',
    UpdateBoard gol = Ok gol' /\
    deltaTime gol' = deltaTime gol /\
    simulationPaused gol' = simulationPaused gol /\
    board gol' = workBoard gol' /\
    board_ok (board gol') /\
    forall row col, interior row col = true ->
      cell (board gol') row col = next_state (board gol) row col.
Proof.
  intros Hb Hw. destruct (UpdateBoard_spec gol Hb Hw) as (wb & Heq & Hwb & Hcells).
  eexists. split; [exact Heq|]. cbn [deltaTime simulationPaused board workBoard].
  split_and!; try done.
  intros row col Hint. rewrite Hcells, Hint; [done|].
  apply interior_spec in Hint as [[? ?] [? ?]]. unfold in_board. lia.
Qed.

Lemma UpdateBoard_stays_in_bounds_witness :
  exists gol',
    UpdateBoard live_with_two = Ok gol' /\ cell (board gol') 2 2 = 1.
Proof.
  destruct (UpdateBoard_stays_in_bounds live_with_two)
    as (gol' & Hup & _ & _ & _ & _ & Hcells); [board_ok_by_computation..|].
  exists gol'. split; [exact Hup|].
  rewrite (Hcells 2 2) by reflexivity. vm_compute. reflexivity.
Defined.

(** X4: the 'p' key flips the pause flag and changes nothing else, so two
    'p' key events in a row give the state back. *)
Theorem pause_key_toggles (random : nat -> Z) (w : World) :
  (exists w1,
     handle_event random (SDL_KEYDOWN SDLK_p) w = Ok w1 /\
     simulationPaused (game w1) = negb (simulationPaused (game w)) /\
     deltaTime (game w1) = deltaTime (game w) /\
     board (game w1) = board (game w) /\
     workBoard (game w1) = workBoard (game w)) /\
  poll_events random [SDL_KEYDOWN SDLK_p; SDL_KEYDOWN SDLK_p] w = Ok w.
Proof.
  split.
  - eexists. split; [reflexivity|].
    cbn [game set_game set_simulationPaused simulationPaused deltaTime board
         workBoard].
    by destruct (simulationPaused (game w)).
  - destruct w as [[rate paused bd wb] fg bg fs k ds].
    by destruct paused.
Qed.

(** X5: a quit event and the escape and 'q' keys end the process with exit
    status 0, whatever the state, and a pass of the loop that polls one of
    them after [events] that return does not reach the delay. *)
Theorem quit_exits_with_status_0 (random : nat -> Z) (w : World) :
  handle_event random SDL_QUIT w = Exited 0 /\
  handle_event random (SDL_KEYDOWN SDLK_ESCAPE) w = Exited 0 /\
  handle_event random (SDL_KEYDOWN SDLK_q) w = Exited 0 /\
  forall events rest w1 w2,
    SimulationLoop_tick w = Ok w1 -> poll_events random events w1 = Ok w2 ->
    SimulationLoop_iteration random (events ++ SDL_QUIT :: rest) w = Exited 0.
Proof.
  split_and!; try reflexivity.
  intros events rest w1 w2 Htick Hpoll. unfold SimulationLoop_iteration.
  rewrite Htick, ret_bind. clear Htick. revert w1 Hpoll.
  induction events as [|event events IH]; intros w1; cbn [app poll_events].
  - by intros [= <-].
  - intros Hpoll. apply bind_Ok in Hpoll as (w3 & -> & Hpoll).
    rewrite ret_bind. by apply IH.
Qed.

(** ** The index helpers *)

(** X6: [GetRowByIndex] and [GetColumnByIndex] split every index into
    quotient and remainder; on the indices of the board they give a row and
    a column of the board, and they undo the row-major numbering of cells
    both ways. *)
Theorem index_round_trip (row col i : Z) :
  GetRowByIndex i * BOARD_SIDE + GetColumnByIndex i = i /\
  (0 <= i < BOARD_SIDE * BOARD_SIDE ->
     in_board (GetRowByIndex i) (GetColumnByIndex i)) /\
  (in_board row col ->
     0 <= cell_index row col < BOARD_SIDE * BOARD_SIDE /\
     GetRowByIndex (cell_index row col) = row /\
     GetColumnByIndex (cell_index row col) = col).
Proof.
  split_and!.
  - unfold GetRowByIndex, GetColumnByIndex.
    rewrite (Z.quot_rem' i BOARD_SIDE) at 3. lia.
  - intros Hi. by apply index_row_col.
  - intros Hrc.
    assert (0 <= cell_index row col < BOARD_SIDE * BOARD_SIDE) as Hi.
    { unfold cell_index, in_board, BOARD_SIDE in *. lia. }
    split; [exact Hi|].
    destruct (index_row_col _ Hi) as [Hin Hidx].
    by apply cell_index_inj in Hidx.
Qed.

(** ** Runs: what can go wrong *)

(** A property every step that returns carries over holds after the steps. *)
Lemma run_steps_preserves random (P : World -> Prop) steps :
  (forall step w w', P w -> run_step random step w = Ok w' -> P w') ->
  forall w w', P w -> run_steps random steps w = Ok w' -> P w'.
Proof.
  intros Hstep. induction steps as [|step steps IH]; intros w w' HP.
  - by intros [= <-].
  - rewrite run_steps_cons. intros Hrun.
    apply bind_Ok in Hrun as (w1 & Hw1 & Hrun).
    apply (IH w1 w'); [|exact Hrun]. by apply (Hstep step w w1).
Qed.





(** ** The tick rate and the delays of a run *)

Lemma delay_bounds d : 0 < d < 256 -> 3 <= Z.quot 1000 d <= 1000.
Proof.
  intros Hd. rewrite Z.quot_div_nonneg by lia. split.
  - apply Z.div_le_lower_bound; lia.
  - apply Z.div_le_upper_bound; lia.
Qed.

Lemma run_step_rate random step w w' :
  game_inv (game w) -> rate_inv w -> run_step random step w = Ok w' ->
  rate_inv w'.
Proof.
  intros Hinv [Hrate Hdelays].
  assert (forall gol, UpdateBoard (game w) = Ok gol ->
            0 <= deltaTime gol < 256) as Hgeneration.
  { intros gol Hup.
    destruct (UpdateBoard_fields (game w) gol) as [Hr _]; [apply Hinv|exact Hup|].
    by rewrite Hr. }
  destruct step as [|event|]; cbn [run_step].
  - unfold SimulationLoop_tick. destruct (simulationPaused (game w)); cbn [negb].
    + by intros [= <-].
    + intros Hup. apply bind_Ok in Hup as (gol & Hup & [= <-]).
      split; [by apply Hgeneration|exact Hdelays].
  - destruct event as [|sym|button|]; cbn [handle_event].
    + intros Hquit. discriminate Hquit.
    + destruct sym; cbn [EvaluateKey]; try (intros Hkey; discriminate Hkey);
        try (intros [= <-]; by split).
      * intros [= <-]. split; [|exact Hdelays].
        cbn [game set_game deltaTime set_deltaTime]. apply Z.mod_pos_bound. lia.
      * intros [= <-]. split; [|exact Hdelays].
        cbn [game set_game deltaTime set_deltaTime]. apply Z.mod_pos_bound. lia.
      * destruct (negb _); intros [= <-]; by split.
    + unfold take_random. destruct (button =? SDL_BUTTON_LEFT);
        cbn [game set_color_at color_at draws gameColors backgroundColor];
        intros Hup; apply bind_Ok in Hup as (gol & Hup & [= <-]);
        (split; [by apply Hgeneration|exact Hdelays]).
    + intros [= <-]. by split.
  - unfold SimulationLoop_delay.
    destruct (Z.eqb_spec (deltaTime (game w)) 0) as [|Hne];
      [intros Hd; discriminate Hd|].
    intros [= <-]. split; [exact Hrate|]. cbn [delays set_delays].
    apply Forall_cons. split; [|exact Hdelays]. apply delay_bounds. lia.
Qed.

Lemma main_steps_rate random steps w :
  main_steps random steps = Ok w -> game_inv (game w) /\ rate_inv w.
Proof.
  unfold main_steps.
  destruct (InitializeSimulation_spec random main_world zero_board_ok)
    as (bd & -> & Hbd & _).
  rewrite ret_bind.
  apply (run_steps_preserves random (fun w => game_inv (game w) /\ rate_inv w)).
  - intros step v v' [Hinv Hrate] Hstep. split.
    + apply run_step_effect in Hstep. by apply (game_effect_inv (game v)).
    + by apply (run_step_rate random step v).
  - split; [split; [split|]|split].
    + exact Hbd.
    + exact zero_board_ok.
    + exact boundary_dead_zero_board.
    + change (0 <= DEFAULT_DELTA_TIME < 256). unfold DEFAULT_DELTA_TIME. lia.
    + apply Forall_nil_2.
Qed.

(** The first pass of a run without events returns. *)
Lemma main_first_pass random :
  exists w, main_steps random [Tick; Delay] = Ok w.
Proof.
  unfold main_steps. destruct (main_start random) as (w0 & -> & Hinv & Hrun & Hrate).
  rewrite ret_bind, !run_steps_cons. cbn [run_step run_steps].
  unfold SimulationLoop_tick. rewrite Hrun. cbn [negb].
  destruct (UpdateBoard_returns (game w0)) as [gol Hup]; [apply Hinv|].
  destruct (UpdateBoard_fields (game w0) gol) as [Hr _]; [apply Hinv|exact Hup|].
  rewrite Hup, !ret_bind. unfold SimulationLoop_delay.
  cbn [game set_game]. rewrite Hr, Hrate.
  change (DEFAULT_DELTA_TIME =? 0) with false. eexists. reflexivity.
Qed.

(** X8: in every state of a run the tick rate is a value of [uint8_t]
    (0..255) and every delay the loop has asked for lies between 3 and 1000
    milliseconds. *)
Theorem rate_and_delays_bounded (random : nat -> Z) (steps : list loop_step)
    (w : World) :
  main_steps random steps = Ok w ->
  0 <= deltaTime (game w) < 256 /\
  Forall (fun ms => 3 <= ms <= 1000) (delays w).
Proof. intros Hrun. by apply (main_steps_rate random steps). Qed.

Lemma rate_and_delays_bounded_witness :
  0 <= deltaTime (game (returned main_world
                          (main_steps (fun _ => 0) [Tick; Delay]))) < 256 /\
  Forall (fun ms => 3 <= ms <= 1000)
    (delays (returned main_world (main_steps (fun _ => 0) [Tick; Delay]))).
Proof.
  apply (rate_and_delays_bounded (fun _ => 0) [Tick; Delay]).
  apply Ok_returned, main_first_pass.
Defined.

(** ** Passes without events *)

(** A pass without events of a running game: one generation step, one
    delay. *)
Lemma quiet_pass random w :
  boards_ok (game w) -> simulationPaused (game w) = false ->
  deltaTime (game w) <> 0 ->
  exists gol,
    UpdateBoard (game w) = Ok gol /\
    SimulationLoop_iteration random [] w =
      Ok (set_delays (set_game w gol)
            (Z.quot 1000 (deltaTime (game w)) :: delays w)).
Proof.
  intros Hok Hrun Hrate.
  destruct (UpdateBoard_returns (game w) Hok) as [gol Hup].
  destruct (UpdateBoard_fields (game w) gol Hok Hup) as [Hr _].
  exists gol. split; [exact Hup|].
  unfold SimulationLoop_iteration, SimulationLoop_tick.
  rewrite Hrun. cbn [negb]. rewrite Hup, !ret_bind. cbn [poll_events].
  rewrite ret_bind. unfold SimulationLoop_delay. cbn [game set_game].
  rewrite Hr. destruct (Z.eqb_spec (deltaTime (game w)) 0) as [|_]; [done|].
  reflexivity.
Qed.

Lemma replicate_app_cons {A} (n : nat) (x : A) (l : list A) :
  replicate n x ++ x :: l = replicate (Datatypes.S n) x ++ l.
Proof.
  induction n as [|n IH]; [reflexivity|].
  cbn [replicate app] in *. by rewrite IH.
Qed.

Lemma quiet_passes_running random n :
  forall w,
    boards_ok (game w) -> simulationPaused (game w) = false ->
    deltaTime (game w) <> 0 ->
    exists gol,
      generations n (game w) = Ok gol /\
      SimulationLoop random (replicate n []) w =
        Ok (set_delays (set_game w gol)
              (replicate n (Z.quot 1000 (deltaTime (game w))) ++ delays w)).
Proof.
  induction n as [|n IH]; intros w Hok Hrun Hrate.
  - exists (game w). split; [reflexivity|]. by destruct w.
  - destruct (quiet_pass random w Hok Hrun Hrate) as (gol1 & Hup & Hpass).
    destruct (UpdateBoard_fields (game w) gol1 Hok Hup) as [Hr Hp].
    destruct (IH (set_delays (set_game w gol1)
                    (Z.quot 1000 (deltaTime (game w)) :: delays w)))
      as (gol & Hgen & Hloop).
    { by apply (UpdateBoard_boards_ok (game w)). }
    { cbn [game set_game set_delays]. by rewrite Hp. }
    { cbn [game set_game set_delays]. by rewrite Hr. }
    exists gol. cbn [generations replicate]. rewrite Hup, ret_bind.
    split; [exact Hgen|].
    rewrite SimulationLoop_cons, Hpass, ret_bind, Hloop.
    cbn [game set_game set_delays delays]. rewrite Hr.
    by rewrite replicate_app_cons.
Qed.

Lemma quiet_passes_paused random n :
  forall w,
    simulationPaused (game w) = true -> deltaTime (game w) <> 0 ->
    SimulationLoop random (replicate n []) w =
      Ok (set_delays w
            (replicate n (Z.quot 1000 (deltaTime (game w))) ++ delays w)).
Proof.
  induction n as [|n IH]; intros w Hpaused Hrate.
  - by destruct w.
  - cbn [replicate]. rewrite SimulationLoop_cons.
    unfold SimulationLoop_iteration, SimulationLoop_tick.
    rewrite Hpaused. cbn [negb poll_events]. rewrite !ret_bind.
    unfold SimulationLoop_delay.
    destruct (Z.eqb_spec (deltaTime (game w)) 0) as [|_]; [done|].
    rewrite ret_bind, IH by done.
    cbn [game set_delays delays]. by rewrite replicate_app_cons.
Qed.

(** X9: with a rate other than 0, [n] passes of the loop without events
    return: a running game has gone through exactly [n] generation steps, a
    paused one is as it was, and either way [n] delays of [1000 / deltaTime]
    milliseconds were asked for and nothing else has changed. *)
Theorem quiet_passes (random : nat -> Z) (n : nat) (w : World) :
  boards_ok (game w) -> deltaTime (game w) <> 0 ->
  exists gol,
    (if simulationPaused (game w) then gol = game w
     else generations n (game w) = Ok gol) /\
    SimulationLoop random (replicate n []) w =
      Ok (mkWorld gol (gameColors w) (backgroundColor w) (gFullscreen w)
            (draws w)
            (replicate n (Z.quot 1000 (deltaTime (game w))) ++ delays w)).
Proof.
  intros Hok Hrate. destruct (simulationPaused (game w)) eqn:Hpaused.
  - exists (game w). split; [reflexivity|].
    rewrite quiet_passes_paused by done. reflexivity.
  - destruct (quiet_passes_running random n w Hok Hpaused Hrate)
      as (gol & Hgen & Hloop).
    exists gol. split; [exact Hgen|]. rewrite Hloop. reflexivity.
Qed.

Lemma quiet_passes_witness :
  exists gol,
    generations 3 (game main_world) = Ok gol /\
    SimulationLoop (fun _ => 0) (replicate 3 []) main_world =
      Ok (mkWorld gol (mkColor 255 127 0 255) (mkColor 0 0 0 255) 0 0 [16; 16; 16]).
Proof.
  apply (quiet_passes (fun _ => 0) 3 main_world).
  - split; exact zero_board_ok.
  - discriminate.
Defined.

(** ** Who calls [random] *)

Lemma run_step_draws random step w w' :
  run_step random step w = Ok w' ->
  draws w' = (draws w + 3 * clicks [step])%nat.
Proof.
  destruct step as [|event|]; cbn [run_step clicks].
  - unfold SimulationLoop_tick. destruct (negb _).
    + intros Hup. apply bind_Ok in Hup as (gol & _ & [= <-]).
      cbn [draws set_game]. lia.
    + intros [= <-]. lia.
  - destruct event as [|sym|button|]; cbn [handle_event].
    + intros Hquit. discriminate Hquit.
    + destruct sym; cbn [EvaluateKey]; try (intros Hkey; discriminate Hkey);
        try (intros [= <-]; cbn [draws set_game]; lia).
      destruct (negb _); intros [= <-]; cbn [draws set_gFullscreen]; lia.
    + unfold take_random. destruct (button =? SDL_BUTTON_LEFT);
        cbn [game set_color_at color_at draws gameColors backgroundColor];
        intros Hup; apply bind_Ok in Hup as (gol & _ & [= <-]);
        cbn [draws set_game]; lia.
    + intros [= <-]. lia.
  - unfold SimulationLoop_delay. destruct (_ =? 0);
      [intros Hd; discriminate Hd|].
    intros [= <-]. cbn [draws set_delays]. lia.
Qed.

Lemma clicks_cons step steps :
  clicks (step :: steps) = (clicks [step] + clicks steps)%nat.
Proof. destruct step as [|[| |button|]|]; cbn [clicks]; lia. Qed.

Lemma run_steps_draws random steps :
  forall w w', run_steps random steps w = Ok w' ->
    draws w' = (draws w + 3 * clicks steps)%nat.
Proof.
  induction steps as [|step steps IH]; intros w w'.
  - intros [= <-]. cbn [clicks]. lia.
  - rewrite run_steps_cons, clicks_cons. intros Hrun.
    apply bind_Ok in Hrun as (w1 & Hstep & Hrun).
    rewrite (IH _ _ Hrun), (run_step_draws _ _ _ _ Hstep). lia.
Qed.

(** X10: [random] is called once per cell by [InitializeSimulation] and
    three times per mouse-button-down event, and by nothing else: a run
    that has returned from its steps has made
    [BOARD_SIDE * BOARD_SIDE + 3 * clicks] calls. *)
Theorem random_calls_of_a_run (random : nat -> Z) (steps : list loop_step)
    (w : World) :
  main_steps random steps = Ok w ->
  Z.of_nat (draws w) = BOARD_SIDE * BOARD_SIDE + 3 * Z.of_nat (clicks steps).
Proof.
  unfold main_steps.
  destruct (InitializeSimulation_spec random main_world zero_board_ok)
    as (bd & -> & _).
  rewrite ret_bind. intros Hrun. rewrite (run_steps_draws _ _ _ _ Hrun).
  cbn [draws seeded main_world]. unfold BOARD_SIDE. lia.
Qed.

Lemma random_calls_of_a_run_witness :
  Z.of_nat (draws (returned main_world (main_steps (fun _ => 0) [Tick; Delay])))
    = BOARD_SIDE * BOARD_SIDE + 3 * Z.of_nat (clicks [Tick; Delay]).
Proof.
  apply (random_calls_of_a_run (fun _ => 0) [Tick; Delay]).
  apply Ok_returned, main_first_pass.
Defined.

(** ** Keys *)

(** X11: the escape and 'q' keys, and no other key, end the process, with
    status 0; every other key returns a state with the same boards, the same
    colours, the same number of calls of [random] and the same delays, in
    which '-' and '+' alone have changed the rate (by one, as a [uint8_t]),
    'p' alone the pause flag (negated) and F11 alone the fullscreen flag
    (1 when it was 0, else 0). *)
Theorem keys_leave_boards_and_colors (sym : SDL_Keycode) (w : World) :
  match sym with
  | SDLK_ESCAPE | SDLK_q => EvaluateKey sym w = Exited 0
  | _ =>
      exists w',
        EvaluateKey sym w = Ok w' /\
        board (game w') = board (game w) /\
        workBoard (game w') = workBoard (game w) /\
        gameColors w' = gameColors w /\
        backgroundColor w' = backgroundColor w /\
        draws w' = draws w /\
        delays w' = delays w /\
        deltaTime (game w') =
          match sym with
          | SDLK_MINUS => to_uint8 (deltaTime (game w) - 1)
          | SDLK_PLUS => to_uint8 (deltaTime (game w) + 1)
          | _ => deltaTime (game w)
          end /\
        simulationPaused (game w') =
          match sym with
          | SDLK_p => negb (simulationPaused (game w))
          | _ => simulationPaused (game w)
          end /\
        gFullscreen w' =
          match sym with
          | SDLK_F11 => if gFullscreen w =? 0 then 1 else 0
          | _ => gFullscreen w
          end
  end.
Proof.
  destruct sym; cbn [EvaluateKey]; try reflexivity.
  - eexists. split; [reflexivity|]. by split_and!.
  - eexists. split; [reflexivity|]. by split_and!.
  - eexists. split; [reflexivity|]. by split_and!.
  - destruct (gFullscreen w =? 0); cbn [negb];
      (eexists; split; [reflexivity|]; by split_and!).
  - eexists. split; [reflexivity|]. by split_and!.
Qed.

(** X12: on a rate that is a [uint8_t], a '+' key event followed by a '-'
    key event, or a '-' followed by a '+', gives back the state it started
    from, also across the wrap between 255 and 0. *)
Theorem speed_keys_undo_each_other (random : nat -> Z) (w : World) :
  0 <= deltaTime (game w) < 256 ->
  poll_events random [SDL_KEYDOWN SDLK_PLUS; SDL_KEYDOWN SDLK_MINUS] w = Ok w /\
  poll_events random [SDL_KEYDOWN SDLK_MINUS; SDL_KEYDOWN SDLK_PLUS] w = Ok w.
Proof.
  intros Hrate. destruct w as [[rate paused bd wb] fg bg fs k ds].
  cbn [game deltaTime] in Hrate.
  cbn [poll_events handle_event EvaluateKey]. rewrite !ret_bind.
  unfold set_game, set_deltaTime, to_uint8.
  cbn [game deltaTime simulationPaused board workBoard
       gameColors backgroundColor gFullscreen draws delays].
  rewrite Zminus_mod_idemp_l, Zplus_mod_idemp_l.
  replace (rate + 1 - 1) with rate by lia.
  replace (rate - 1 + 1) with rate by lia.
  by rewrite Z.mod_small by lia.
Qed.

Lemma speed_keys_undo_each_other_witness :
  poll_events (fun _ => 0) [SDL_KEYDOWN SDLK_PLUS; SDL_KEYDOWN SDLK_MINUS]
    (set_game main_world (set_deltaTime (game main_world) 255))
  = Ok (set_game main_world (set_deltaTime (game main_world) 255)) /\
  poll_events (fun _ => 0) [SDL_KEYDOWN SDLK_MINUS; SDL_KEYDOWN SDLK_PLUS]
    (set_game main_world (set_deltaTime (game main_world) 255))
  = Ok (set_game main_world (set_deltaTime (game main_world) 255)).
Proof.
  apply (speed_keys_undo_each_other (fun _ => 0)
           (set_game main_world (set_deltaTime (game main_world) 255))).
  cbn [game set_game deltaTime set_deltaTime]. lia.
Defined.

(** ** The rule and the canonical rule *)

Lemma alive_binary bd row col : alive bd row col = 0 \/ alive bd row col = 1.
Proof. unfold alive. destruct (_ =? 0); auto. Qed.

Lemma next_state_canonical bd row col :
  next_state bd row col =
    if (alive bd row col =? 0) && (live_neighbours bd row col =? 4) then 1
    else canonical_rule (alive bd row col) (live_neighbours bd row col).
Proof.
  unfold next_state, canonical_rule. cbv zeta.
  destruct (alive_binary bd row col) as [-> | ->];
    generalize (live_neighbours bd row col); intros n; rewrite !Z.gtb_ltb;
    change (0 =? 0) with true; change (1 =? 0) with false; cbn [andb];
    repeat match goal with
           | |- context [Z.ltb ?x ?y] => destruct (Z.ltb_spec x y)
           | |- context [Z.eqb ?x ?y] => destruct (Z.eqb_spec x y)
           end; cbn [orb]; (reflexivity || lia).
Qed.

(** X13: on an interior cell the rule engine writes what the canonical rule
    of Conway's Game of Life gives for the cell and its 8 neighbours, with one
    exception: a dead cell with exactly 4 live neighbours comes alive. *)
Theorem canonical_rule_but_for_four (gol : gameOfLife_t) (row col : Z) :
  board_ok (board gol) -> board_ok (workBoard gol) ->
  interior row col = true ->
  exists gol',
    ApplyLifeRule gol row col = Ok gol' /\
    cell (workBoard gol') row col =
      if (alive (board gol) row col =? 0)
         && (live_neighbours (board gol) row col =? 4)
      then 1
      else canonical_rule (alive (board gol) row col)
                          (live_neighbours (board gol) row col).
Proof.
  intros Hb Hw Hint. rewrite ApplyLifeRule_interior by done.
  eexists. split; [reflexivity|]. cbn [workBoard set_workBoard].
  apply interior_spec in Hint as [[? ?] [? ?]].
  rewrite cell_board_upd by (done || unfold in_board; lia).
  rewrite decide_True by done. apply next_state_canonical.
Qed.

Lemma canonical_rule_but_for_four_witness :
  exists gol',
    ApplyLifeRule (mkGameOfLife 60 false four_neighbours zero_board) 2 2 = Ok gol' /\
    cell (workBoard gol') 2 2 = 1 /\
    canonical_rule (alive four_neighbours 2 2) (live_neighbours four_neighbours 2 2)
      = 0.
Proof.
  destruct (canonical_rule_but_for_four
              (mkGameOfLife 60 false four_neighbours zero_board) 2 2)
    as (gol' & Hrule & Hcell);
    [board_ok_by_computation..|reflexivity|].
  exists gol'. split; [exact Hrule|]. split; [|vm_compute; reflexivity].
  rewrite Hcell. vm_compute. reflexivity.
Defined.

(** ** Symmetry and locality of the generation step *)

Lemma interior_sym row col : interior row col = interior col row.
Proof.
  unfold interior.
  destruct (0 <? row), (row <? BOARD_SIDE - 1), (0 <? col),
           (col <? BOARD_SIDE - 1); reflexivity.
Qed.

Lemma in_board_sym row col : in_board row col -> in_board col row.
Proof. unfold in_board. tauto. Qed.

Lemma next_state_transposed bd bd_t row col :
  interior row col = true ->
  (forall r c, in_board r c -> cell bd_t r c = cell bd c r) ->
  next_state bd_t row col = next_state bd col row.
Proof.
  intros Hint Hcells. apply interior_spec in Hint as [[? ?] [? ?]].
  assert (forall r c, in_board r c -> alive bd_t r c = alive bd c r) as Halive.
  { intros r c Hrc. unfold alive. by rewrite Hcells. }
  unfold next_state, live_neighbours.
  rewrite !Halive by (unfold in_board; lia). cbv zeta.
  match goal with
  | |- (if (?x <? 2) || (?x >? 3) then _ else _) =
       (if (?y <? 2) || (?y >? 3) then _ else _) =>
      replace x with y by lia
  end.
  reflexivity.
Qed.

(** X14: the generation step commutes with mirroring in the diagonal: when
    the boards of one game are those of another with rows and columns
    swapped, the displayed boards after a generation step are again each
    other's mirror image. *)
Theorem generation_commutes_with_transposition (gol gol_t : gameOfLife_t) :
  boards_ok gol -> boards_ok gol_t ->
  (forall row col, in_board row col ->
     cell (board gol_t) row col = cell (board gol) col row) ->
  (forall row col, in_board row col ->
     cell (workBoard gol_t) row col = cell (workBoard gol) col row) ->
  exists gol' gol_t',
    UpdateBoard gol = Ok gol' /\
    UpdateBoard gol_t = Ok gol_t' /\
    forall row col, in_board row col ->
      cell (board gol_t') row col = cell (board gol') col row.
Proof.
  intros [Hb Hw] [Hbt Hwt] Hboard Hwork.
  destruct (UpdateBoard_spec gol Hb Hw) as (wb & -> & _ & Hcells).
  destruct (UpdateBoard_spec gol_t Hbt Hwt) as (wbt & -> & _ & Hcellst).
  do 2 eexists. split; [reflexivity|]. split; [reflexivity|].
  cbn [board]. intros row col Hrc.
  rewrite Hcellst, Hcells by (done || by apply in_board_sym).
  rewrite (interior_sym col row).
  destruct (interior row col) eqn:Hint.
  - by apply next_state_transposed.
  - by apply Hwork.
Qed.

Lemma generation_commutes_with_transposition_witness :
  exists gol' gol_t',
    UpdateBoard (mkGameOfLife 60 false two_neighbours zero_board) = Ok gol' /\
    UpdateBoard (mkGameOfLife 60 false two_neighbours_transposed zero_board)
      = Ok gol_t' /\
    cell (board gol_t') 2 1 = cell (board gol') 1 2.
Proof.
  destruct (generation_commutes_with_transposition
              (mkGameOfLife 60 false two_neighbours zero_board)
              (mkGameOfLife 60 false two_neighbours_transposed zero_board))
    as (gol' & gol_t' & Hup & Hupt & Hcells).
  - split; board_ok_by_computation.
  - split; board_ok_by_computation.
  - intros row col [? ?]. cbn [board].
    unfold two_neighbours_transposed, two_neighbours.
    rewrite !cell_board_upd, !cell_zero_board
      by (auto with boards || (unfold in_board, BOARD_SIDE in *; lia)).
    repeat case_decide; (reflexivity || lia).
  - intros row col _. cbn [workBoard]. by rewrite !cell_zero_board.
  - exists gol', gol_t'. split; [exact Hup|]. split; [exact Hupt|].
    apply Hcells. unfold in_board, BOARD_SIDE. lia.
Defined.

Lemma next_state_local bd1 bd2 row col :
  (forall r c, row - 1 <= r <= row + 1 -> col - 1 <= c <= col + 1 ->
     cell bd1 r c = cell bd2 r c) ->
  next_state bd1 row col = next_state bd2 row col.
Proof.
  intros Hblock.
  assert (forall r c, row - 1 <= r <= row + 1 -> col - 1 <= c <= col + 1 ->
            alive bd1 r c = alive bd2 r c) as Halive.
  { intros r c Hr Hc. unfold alive. by rewrite Hblock. }
  unfold next_state, live_neighbours. by rewrite !Halive by lia.
Qed.

(** X15: after a generation step an interior cell of the displayed board
    depends only on the 3x3 block around it in the displayed board before
    the step: two games that agree on this block agree on the cell, whatever
    the rest of their boards, their working boards, rates and pause flags
    are. *)
Theorem generation_is_local (gol1 gol2 : gameOfLife_t) (row col : Z) :
  boards_ok gol1 -> boards_ok gol2 -> interior row col = true ->
  (forall r c, row - 1 <= r <= row + 1 -> col - 1 <= c <= col + 1 ->
     cell (board gol1) r c = cell (board gol2) r c) ->
  exists gol1' gol2',
    UpdateBoard gol1 = Ok gol1' /\
    UpdateBoard gol2 = Ok gol2' /\
    cell (board gol1') row col = cell (board gol2') row col.
Proof.
  intros Hok1 Hok2 Hint Hblock.
  destruct (UpdateBoard_returns gol1 Hok1) as [gol1' Hup1].
  destruct (UpdateBoard_returns gol2 Hok2) as [gol2' Hup2].
  exists gol1', gol2'. split; [exact Hup1|]. split; [exact Hup2|].
  rewrite (UpdateBoard_commits _ _ Hok1 Hup1), (UpdateBoard_commits _ _ Hok2 Hup2).
  rewrite (UpdateBoard_interior _ _ _ _ Hok1 Hup1 Hint).
  rewrite (UpdateBoard_interior _ _ _ _ Hok2 Hup2 Hint).
  by apply next_state_local.
Qed.

Lemma generation_is_local_witness :
  exists gol1' gol2',
    UpdateBoard (mkGameOfLife 60 false two_neighbours zero_board) = Ok gol1' /\
    UpdateBoard far_cell_differs = Ok gol2' /\
    cell (board gol1') 2 2 = cell (board gol2') 2 2.
Proof.
  apply (generation_is_local
           (mkGameOfLife 60 false two_neighbours zero_board) far_cell_differs 2 2).
  - split; board_ok_by_computation.
  - split; board_ok_by_computation.
  - reflexivity.
  - intros r c Hr Hc. unfold far_cell_differs. cbn [board].
    rewrite (cell_board_upd two_neighbours)
      by (board_ok_by_computation || (unfold in_board, BOARD_SIDE; lia)).
    rewrite decide_False by lia. reflexivity.
Defined.

(** ** Cells hold 0 or 1 *)

Lemma next_state_binary bd row col :
  next_state bd row col = 0 \/ next_state bd row col = 1.
Proof. unfold next_state. cbv zeta. destruct (_ || _); auto. Qed.

Lemma seed_cell_binary random k : seed_cell random k = 0 \/ seed_cell random k = 1.
Proof. unfold seed_cell. destruct (_ =? 0); auto. Qed.

Lemma binary_zero_board : binary_board zero_board.
Proof. intros row col _. left. apply cell_zero_board. Qed.

Lemma game_effect_binary gol gol' :
  boards_ok gol -> binary_board (board gol) -> binary_board (workBoard gol) ->
  game_effect gol gol' ->
  binary_board (board gol') /\ binary_board (workBoard gol').
Proof.
  intros Hok Hb Hw [Hkb Hkw|Hup].
  - by rewrite Hkb, Hkw.
  - UpdateBoard_result Hok Hup wb Hwb Hcells.
    assert (binary_board wb) as Hbin; [|by split].
    intros row col Hrc. rewrite Hcells by done.
    destruct (interior row col); [apply next_state_binary|by apply Hw].
Qed.

Lemma main_steps_binary random steps w :
  main_steps random steps = Ok w ->
  binary_board (board (game w)) /\ binary_board (workBoard (game w)).
Proof.
  unfold main_steps.
  destruct (InitializeSimulation_spec random main_world zero_board_ok)
    as (bd & -> & Hbd & Hcells).
  rewrite ret_bind. intros Hrun.
  apply (run_steps_preserves random
           (fun w => game_inv (game w) /\
                     binary_board (board (game w)) /\
                     binary_board (workBoard (game w)))) in Hrun.
  - apply Hrun.
  - intros step v v' (Hinv & Hb & Hw) Hstep. apply run_step_effect in Hstep.
    split; [by apply (game_effect_inv (game v))|].
    apply (game_effect_binary (game v)); (done || apply Hinv).
  - split; [split; [split|]|split].
    + exact Hbd.
    + exact zero_board_ok.
    + exact boundary_dead_zero_board.
    + intros row col Hrc. cbn [seeded game board]. rewrite Hcells by done.
      apply seed_cell_binary.
    + exact binary_zero_board.
Qed.

(** X16: in every state of a run every cell of both boards holds 0 or 1, so
    the test [== 1] that picks the cells to draw and the test for non-zero
    that counts live neighbours agree on every cell. *)
Theorem cells_are_binary (random : nat -> Z) (steps : list loop_step)
    (w : World) (row col : Z) :
  main_steps random steps = Ok w -> in_board row col ->
  (cell (board (game w)) row col = 0 \/ cell (board (game w)) row col = 1) /\
  (cell (workBoard (game w)) row col = 0 \/
   cell (workBoard (game w)) row col = 1) /\
  (cell (board (game w)) row col =? 1) =
    negb (cell (board (game w)) row col =? 0).
Proof.
  intros Hrun Hrc.
  destruct (main_steps_binary random steps w Hrun) as [Hb Hw].
  split; [by apply Hb|]. split; [by apply Hw|].
  by destruct (Hb row col Hrc) as [-> | ->].
Qed.

Lemma cells_are_binary_witness :
  (cell (board (game (returned main_world
                        (main_steps (fun _ => 0) [Tick; Delay])))) 0 0 =? 1) =
  negb (cell (board (game (returned main_world
                             (main_steps (fun _ => 0) [Tick; Delay])))) 0 0 =? 0).
Proof.
  apply (cells_are_binary (fun _ => 0) [Tick; Delay]).
  - apply Ok_returned, main_first_pass.
  - unfold in_board, BOARD_SIDE. lia.
Defined.

(** ** The frame [UpdateBoard] draws *)

(** The grid loop from offset [PIXEL_SIZE * k] on, with [n] passes to go. *)
Lemma draw_grid_from (n : nat) : forall (fuel : nat) (k : Z) (calls : list SDL_call),
  0 <= k -> k + Z.of_nat n = BOARD_SIDE -> (n < fuel)%nat ->
  draw_grid fuel (PIXEL_SIZE * k) calls =
    Some (calls ++ flat_map (fun k => grid_lines_at (PIXEL_SIZE * k)) (seqZ k (Z.of_nat n))).
Proof.
  induction n as [|n IH]; intros fuel k calls Hk Hn Hfuel.
  - destruct fuel as [|fuel]; [lia|]. cbn [draw_grid].
    rewrite (proj2 (Z.ltb_ge _ _)) by (unfold PIXEL_SIZE, BOARD_SIDE in *; lia).
    cbn. by rewrite app_nil_r.
  - destruct fuel as [|fuel]; [lia|]. cbn [draw_grid].
    rewrite (proj2 (Z.ltb_lt _ _)) by (unfold PIXEL_SIZE, BOARD_SIDE in *; lia).
    replace (to_uint16 (PIXEL_SIZE * k + PIXEL_SIZE)) with (PIXEL_SIZE * (k + 1)).
    2:{ unfold to_uint16. rewrite Z.mod_small; unfold PIXEL_SIZE, BOARD_SIDE in *; lia. }
    rewrite IH by lia.
    rewrite (seqZ_cons k) by lia. cbn [flat_map].
    replace (Z.succ k) with (k + 1) by lia.
    replace (Z.pred (Z.of_nat (Datatypes.S n))) with (Z.of_nat n) by lia.
    by rewrite <- app_assoc.
Qed.

(** With no more fuel than passes to go, the loop has not ended. *)
Lemma draw_grid_short (fuel : nat) : forall (k : Z) (calls : list SDL_call),
  0 <= k -> k + Z.of_nat fuel <= BOARD_SIDE ->
  draw_grid fuel (PIXEL_SIZE * k) calls = None.
Proof.
  induction fuel as [|fuel IH]; intros k calls Hk Hfuel; [reflexivity|].
  cbn [draw_grid].
  rewrite (proj2 (Z.ltb_lt _ _)) by (unfold PIXEL_SIZE, BOARD_SIDE in *; lia).
  replace (to_uint16 (PIXEL_SIZE * k + PIXEL_SIZE)) with (PIXEL_SIZE * (k + 1)).
  2:{ unfold to_uint16. rewrite Z.mod_small; unfold PIXEL_SIZE, BOARD_SIDE in *; lia. }
  apply IH; lia.
Qed.

(** X17: the grid loop of [UpdateBoard] leaves by its test after exactly
    [BOARD_SIDE] passes (its [uint16_t] counter never wraps): it needs 201
    evaluations of the test, and then it has appended the 400 lines of
    [grid_lines], a horizontal and a vertical one at every multiple of
    [PIXEL_SIZE] from 0 to 995. *)
Theorem grid_loop_makes_200_passes (fuel : nat) (calls : list SDL_call) :
  draw_grid fuel 0 calls =
    (if decide (Z.to_nat BOARD_SIDE < fuel)%nat then Some (calls ++ grid_lines)
     else None) /\
  length grid_lines = 400%nat.
Proof.
  split; [|reflexivity].
  change 0 with (PIXEL_SIZE * 0) at 1. case_decide as Hfuel.
  - apply (draw_grid_from (Z.to_nat BOARD_SIDE)); unfold BOARD_SIDE in *; lia.
  - apply draw_grid_short; unfold BOARD_SIDE in *; lia.
Qed.

(** One more pass of the loop that draws the cells. *)
Lemma cell_rects_below_succ bd j :
  0 <= j ->
  cell_rects_below bd (j + 1) =
    cell_rects_below bd j ++
      (if cell bd (GetRowByIndex j) (GetColumnByIndex j) =? 1
       then [cell_rect (GetRowByIndex j) (GetColumnByIndex j)] else []).
Proof.
  intros Hj. unfold cell_rects_below.
  rewrite seqZ_app, filter_app, fmap_app by lia. f_equal.
  rewrite seqZ_cons, seqZ_nil by lia. rewrite Z.add_0_l.
  rewrite filter_cons, filter_nil.
  destruct (Z.eqb_spec (cell bd (GetRowByIndex j) (GetColumnByIndex j)) 1);
    case_decide; done.
Qed.

Lemma draw_cells_spec bd calls :
  board_ok bd -> draw_cells bd calls = Ok (calls ++ cell_rects bd).
Proof.
  intros Hok. unfold draw_cells, for_loop.
  destruct (for_range_invariant
              (fun j c => c = calls ++ cell_rects_below bd j)
              (fun i calls =>
                 v ← load bd (GetRowByIndex i) (GetColumnByIndex i);
                 Ok (if v =? 1
                     then calls ++ [SDL_RenderFillRect (GetRowByIndex i * PIXEL_SIZE)
                                      (GetColumnByIndex i * PIXEL_SIZE)
                                      PIXEL_SIZE PIXEL_SIZE]
                     else calls))
              (Z.to_nat (BOARD_SIDE * BOARD_SIDE - 0)) 0 calls)
    as (c & Hloop & Hc).
  - unfold cell_rects_below. rewrite seqZ_nil by lia. cbn. by rewrite app_nil_r.
  - intros j t Hj ->.
    assert (0 <= j < BOARD_SIDE * BOARD_SIDE) as Hj' by (unfold BOARD_SIDE in *; lia).
    destruct (index_row_col j Hj') as [Hin _].
    rewrite (load_ok _ Hok _ _ Hin), ret_bind. eexists. split; [reflexivity|].
    rewrite cell_rects_below_succ by lia.
    destruct (_ =? 1); [by rewrite <- app_assoc|by rewrite app_nil_r].
  - replace (0 + Z.of_nat (Z.to_nat (BOARD_SIDE * BOARD_SIDE - 0)))
      with (BOARD_SIDE * BOARD_SIDE) in Hc by (unfold BOARD_SIDE; lia).
    by rewrite Hloop, Hc.
Qed.

Lemma cell_rect_inj row col row' col' :
  cell_rect row col = cell_rect row' col' -> row = row' /\ col = col'.
Proof. unfold cell_rect, PIXEL_SIZE. intros [= Hx Hy]. lia. Qed.

Lemma elem_of_cell_rects bd call :
  call ∈ cell_rects bd <->
  exists row col,
    in_board row col /\ cell bd row col = 1 /\ call = cell_rect row col.
Proof.
  unfold cell_rects, cell_rects_below. rewrite list_elem_of_fmap. split.
  - intros (i & -> & Hi). apply list_elem_of_filter in Hi as [Hcell Hi].
    apply elem_of_seqZ in Hi.
    destruct (index_row_col i) as [Hin _]; [lia|]. by eauto.
  - intros (row & col & Hrc & Hcell & ->).
    assert (0 <= cell_index row col < BOARD_SIDE * BOARD_SIDE) as Hi
      by (unfold cell_index, in_board, BOARD_SIDE in *; lia).
    destruct (index_row_col _ Hi) as [Hin Hidx].
    apply cell_index_inj in Hidx as [Hrow Hcol]; [|done..].
    exists (cell_index row col). rewrite Hrow, Hcol. split; [done|].
    apply list_elem_of_filter. rewrite Hrow, Hcol. split; [done|].
    apply elem_of_seqZ. lia.
Qed.

Lemma NoDup_cell_rects bd : NoDup (cell_rects bd).
Proof.
  unfold cell_rects, cell_rects_below. apply NoDup_fmap_2_strong.
  - intros i i' Hi Hi' Heq.
    apply list_elem_of_filter in Hi as [_ Hi]. apply elem_of_seqZ in Hi.
    apply list_elem_of_filter in Hi' as [_ Hi']. apply elem_of_seqZ in Hi'.
    apply cell_rect_inj in Heq as [Hrow Hcol].
    destruct (index_row_col i) as [_ <-]; [lia|].
    destruct (index_row_col i') as [_ <-]; [lia|].
    by rewrite Hrow, Hcol.
  - apply NoDup_filter, NoDup_seqZ.
Qed.

Lemma UpdateBoard_frame_spec fuel w gol gol' :
  (Z.to_nat BOARD_SIDE < fuel)%nat -> boards_ok gol -> UpdateBoard gol = Ok gol' ->
  UpdateBoard_frame fuel w gol =
    Some (Ok (gol', [SDL_SetRenderDrawColor (backgroundColor w);
                     SDL_RenderClear;
                     SDL_SetRenderDrawColor (gameColors w)]
                    ++ grid_lines ++ cell_rects (board gol')
                    ++ [SDL_RenderPresent])).
Proof.
  intros Hfuel Hok Hup. unfold UpdateBoard_frame.
  change 0 with (PIXEL_SIZE * 0) at 1.
  rewrite (draw_grid_from (Z.to_nat BOARD_SIDE)) by (unfold BOARD_SIDE in *; lia).
  cbn [mbind option_bind]. rewrite Hup, ret_bind.
  rewrite draw_cells_spec by (by apply (UpdateBoard_boards_ok gol gol')).
  rewrite ret_bind, <- !app_assoc. reflexivity.
Qed.

(** X18: on well-formed boards the whole of [UpdateBoard] returns, and the
    frame it draws is: background colour, clear, life colour, the grid, then
    one square of side [PIXEL_SIZE] for every cell of the new displayed board
    that holds 1, at x = row * [PIXEL_SIZE] and y = column * [PIXEL_SIZE], no
    square twice and no other square, then the present. *)
Theorem frame_shows_cells_holding_1 (fuel : nat) (w : World) (gol : gameOfLife_t) :
  (Z.to_nat BOARD_SIDE < fuel)%nat -> boards_ok gol ->
  exists gol',
    UpdateBoard gol = Ok gol' /\
    UpdateBoard_frame fuel w gol =
      Some (Ok (gol', [SDL_SetRenderDrawColor (backgroundColor w);
                       SDL_RenderClear;
                       SDL_SetRenderDrawColor (gameColors w)]
                      ++ grid_lines ++ cell_rects (board gol')
                      ++ [SDL_RenderPresent])) /\
    NoDup (cell_rects (board gol')) /\
    forall call,
      call ∈ cell_rects (board gol') <->
      exists row col,
        in_board row col /\ cell (board gol') row col = 1 /\
        call = SDL_RenderFillRect (row * PIXEL_SIZE) (col * PIXEL_SIZE)
                                  PIXEL_SIZE PIXEL_SIZE.
Proof.
  intros Hfuel Hok. destruct (UpdateBoard_returns gol Hok) as [gol' Hup].
  exists gol'. split_and!.
  - exact Hup.
  - by apply UpdateBoard_frame_spec.
  - apply NoDup_cell_rects.
  - intros call. apply elem_of_cell_rects.
Qed.

Lemma frame_shows_cells_holding_1_witness :
  exists gol',
    UpdateBoard live_with_two = Ok gol' /\
    UpdateBoard_frame 201 main_world live_with_two =
      Some (Ok (gol', [SDL_SetRenderDrawColor (backgroundColor main_world);
                       SDL_RenderClear;
                       SDL_SetRenderDrawColor (gameColors main_world)]
                      ++ grid_lines ++ cell_rects (board gol')
                      ++ [SDL_RenderPresent])) /\
    NoDup (cell_rects (board gol')) /\
    forall call,
      call ∈ cell_rects (board gol') <->
      exists row col,
        in_board row col /\ cell (board gol') row col = 1 /\
        call = SDL_RenderFillRect (row * PIXEL_SIZE) (col * PIXEL_SIZE)
                                  PIXEL_SIZE PIXEL_SIZE.
Proof.
  apply (frame_shows_cells_holding_1 201 main_world live_with_two).
  - unfold BOARD_SIDE. lia.
  - split; board_ok_by_computation.
Defined.

Lemma cell_rect_not_grid_line row col : cell_rect row col ∉ grid_lines.
Proof.
  unfold grid_lines. rewrite list_elem_of_In, in_flat_map.
  intros (k & _ & Hk). unfold grid_lines_at in Hk.
  destruct Hk as [Hk|[Hk|[]]]; discriminate Hk.
Qed.

Lemma cell_rect_in_frame c1 c2 c3 rects row col :
  cell_rect row col ∈ [c1; c2; c3] ++ grid_lines ++ rects ++ [SDL_RenderPresent] ->
  (forall x y w h, c1 <> SDL_RenderFillRect x y w h) ->
  (forall x y w h, c2 <> SDL_RenderFillRect x y w h) ->
  (forall x y w h, c3 <> SDL_RenderFillRect x y w h) ->
  cell_rect row col ∈ rects.
Proof.
  rewrite !elem_of_app, !elem_of_cons, elem_of_nil.
  intros [[H|[H|[H|[]]]]|[H|[H|[H|[]]]]] H1 H2 H3.
  - by destruct (H1 _ _ _ _ (eq_sym H)).
  - by destruct (H2 _ _ _ _ (eq_sym H)).
  - by destruct (H3 _ _ _ _ (eq_sym H)).
  - by destruct (cell_rect_not_grid_line row col).
  - exact H.
  - discriminate H.
Qed.

Lemma alive_is_1 bd row col :
  cell bd row col = 0 \/ cell bd row col = 1 ->
  alive bd row col = 1 <-> cell bd row col = 1.
Proof. unfold alive. intros [-> | ->]; cbn; split; (done || lia). Qed.

(** X19: in every state of a run, the frame the next generation step draws
    has the square of a cell of the board exactly when that cell is alive in
    the new displayed board, in the sense of the rule engine (non-zero). *)
Theorem run_frame_shows_live_cells (random : nat -> Z) (steps : list loop_step)
    (w : World) (fuel : nat) (row col : Z) :
  main_steps random steps = Ok w -> (Z.to_nat BOARD_SIDE < fuel)%nat ->
  in_board row col ->
  exists gol' calls,
    UpdateBoard_frame fuel w (game w) = Some (Ok (gol', calls)) /\
    UpdateBoard (game w) = Ok gol' /\
    (SDL_RenderFillRect (row * PIXEL_SIZE) (col * PIXEL_SIZE) PIXEL_SIZE PIXEL_SIZE
       ∈ calls <-> alive (board gol') row col = 1).
Proof.
  intros Hrun Hfuel Hrc.
  pose proof (main_steps_inv random steps w Hrun) as Hinv.
  destruct (main_steps_binary random steps w Hrun) as [Hb Hw].
  destruct (UpdateBoard_returns (game w)) as [gol' Hup]; [apply Hinv|].
  destruct (game_effect_binary (game w) gol') as [Hb' _];
    [apply Hinv|exact Hb|exact Hw|by apply generation|].
  eexists gol', _. split; [apply UpdateBoard_frame_spec; [exact Hfuel|apply Hinv|exact Hup]|].
  split; [exact Hup|].
  rewrite (alive_is_1 _ _ _ (Hb' row col Hrc)).
  change (SDL_RenderFillRect (row * PIXEL_SIZE) (col * PIXEL_SIZE) PIXEL_SIZE PIXEL_SIZE)
    with (cell_rect row col).
  split.
  - intros Hin. apply cell_rect_in_frame in Hin; [|discriminate..].
    apply elem_of_cell_rects in Hin as (row' & col' & _ & Hcell & Heq).
    by apply cell_rect_inj in Heq as [-> ->].
  - intros Hcell. rewrite !elem_of_app. right. right. left.
    apply elem_of_cell_rects. by exists row, col.
Qed.

Lemma run_frame_shows_live_cells_witness :
  exists gol' calls,
    UpdateBoard_frame 201 (returned main_world (main_steps (fun _ => 0) [Tick; Delay]))
      (game (returned main_world (main_steps (fun _ => 0) [Tick; Delay])))
      = Some (Ok (gol', calls)) /\
    UpdateBoard (game (returned main_world (main_steps (fun _ => 0) [Tick; Delay])))
      = Ok gol' /\
    (SDL_RenderFillRect (2 * PIXEL_SIZE) (3 * PIXEL_SIZE) PIXEL_SIZE PIXEL_SIZE
       ∈ calls <-> alive (board gol') 2 3 = 1).
Proof.
  apply (run_frame_shows_live_cells (fun _ => 0) [Tick; Delay]).
  - apply Ok_returned, main_first_pass.
  - unfold BOARD_SIDE. lia.
  - unfold in_board, BOARD_SIDE. lia.
Defined.

(** ** [Abort] and [InitializeGraphics] *)

Lemma append_cons (c : ascii) (s t : string) :
  String c s +:+ t = String c (s +:+ t).
Proof. reflexivity. Qed.

Lemma append_nil_r (s : string) : s +:+ "" = s.
Proof. induction s as [|c s IH]; [done|]. by rewrite append_cons, IH. Qed.

Lemma append_assoc (s1 s2 s3 : string) : (s1 +:+ s2) +:+ s3 = s1 +:+ (s2 +:+ s3).
Proof. induction s1 as [|c s1 IH]; [done|]. by rewrite !append_cons, IH. Qed.

Lemma at_placeholder_spec s :
  at_placeholder s = true <-> exists post, s = "{}" +:+ post.
Proof.
  split.
  - destruct s as [|c [|next s]]; cbn [at_placeholder]; [done| |].
    + by rewrite andb_false_r.
    + intros [Hc Hnext]%andb_true_iff.
      apply Ascii.eqb_eq in Hc as ->. apply Ascii.eqb_eq in Hnext as ->.
      by exists s.
  - by intros [post ->].
Qed.

Lemma has_placeholder_app pre post : has_placeholder (pre +:+ "{}" +:+ post) = true.
Proof.
  induction pre as [|c pre IH]; [reflexivity|].
  rewrite append_cons. cbn [has_placeholder]. rewrite IH. apply orb_true_r.
Qed.

Lemma has_placeholder_free s : has_placeholder s = false -> placeholder_free s.
Proof. intros Hs pre post ->. by rewrite has_placeholder_app in Hs. Qed.

Lemma placeholder_free_tail c s : placeholder_free (String c s) -> placeholder_free s.
Proof. intros Hs pre post ->. by apply (Hs (String c pre) post). Qed.

(** Before the first placeholder the test of the loop fails, whatever
    follows the characters read so far. *)
Lemma placeholder_free_head c s t :
  placeholder_free (String c s) ->
  t = EmptyString \/ at_placeholder t = true ->
  at_placeholder (String c (s +:+ t)) = false.
Proof.
  intros Hs Ht. apply not_true_is_false. intros [post Hpost]%at_placeholder_spec.
  injection Hpost as -> Hrest. destruct s as [|next s].
  - destruct Ht as [->|[post' ->]%at_placeholder_spec]; discriminate Hrest.
  - rewrite append_cons in Hrest. injection Hrest as -> _.
    by destruct (Hs ""%string s).
Qed.

Lemma Abort_from_free s : forall text,
  placeholder_free s -> Abort_from s text = Abort_exit (text +:+ s +:+ newline) 1.
Proof.
  induction s as [|c s IH]; intros text Hs; [done|].
  cbn [Abort_from]. rewrite <- (append_nil_r s) at 1.
  rewrite (placeholder_free_head c s "" Hs) by (by left).
  rewrite IH by (by apply (placeholder_free_tail c)).
  by rewrite append_assoc.
Qed.

Lemma Abort_from_placeholder pre post : forall text,
  placeholder_free pre ->
  Abort_from (pre +:+ "{}" +:+ post) text = Abort_va_arg (text +:+ pre).
Proof.
  induction pre as [|c pre IH]; intros text Hpre.
  - rewrite append_nil_r. reflexivity.
  - rewrite append_cons. cbn [Abort_from].
    rewrite (placeholder_free_head c pre _ Hpre) by (by right).
    rewrite IH by (by apply (placeholder_free_tail c)). by rewrite append_assoc.
Qed.

(** X20: [Abort] writes a message without placeholder as it is, followed by
    a newline, and ends the process with status 1; at the first placeholder
    it has written what comes before it and reads an argument list that was
    never initialised, whatever follows the placeholder. *)
Theorem Abort_stops_at_first_placeholder (pre post : string) :
  placeholder_free pre ->
  Abort pre = Abort_exit (pre +:+ newline) 1 /\
  Abort (pre +:+ "{}" +:+ post) = Abort_va_arg pre.
Proof.
  intros Hpre. unfold Abort. split.
  - by rewrite Abort_from_free.
  - by rewrite Abort_from_placeholder.
Qed.

Lemma Abort_stops_at_first_placeholder_witness :
  Abort "Cannot initialize SDL2: " =
    Abort_exit ("Cannot initialize SDL2: " +:+ newline) 1 /\
  Abort ("Cannot initialize SDL2: " +:+ "{}" +:+ "") =
    Abort_va_arg "Cannot initialize SDL2: ".
Proof.
  apply (Abort_stops_at_first_placeholder "Cannot initialize SDL2: " "").
  apply has_placeholder_free. reflexivity.
Defined.

(** X21: [InitializeGraphics] returns exactly when [SDL_Init] gives 0 and the
    window and the renderer are created: the window is titled "Game of Life"
    and is 1000 by 1000, and the renderer is cleared with the life colour.
    Each of the three failures ends inside [Abort] with the text of its own
    message before the placeholder written and the uninitialised argument
    list read: no failure reaches [exit]. *)
Theorem InitializeGraphics_failures_undefined (sdl : SDL_answers) (w : World) :
  (SDL_Init_value sdl <> 0 ->
     InitializeGraphics sdl w =
       Graphics_aborted (Abort_va_arg "Cannot initialize SDL2: ")) /\
  (SDL_Init_value sdl = 0 -> SDL_CreateWindow_some sdl = false ->
     InitializeGraphics sdl w =
       Graphics_aborted (Abort_va_arg "[-] Cannot create window: ")) /\
  (SDL_Init_value sdl = 0 -> SDL_CreateWindow_some sdl = true ->
   SDL_CreateRenderer_some sdl = false ->
     InitializeGraphics sdl w =
       Graphics_aborted (Abort_va_arg "[-] Cannot create renderer: ")) /\
  (SDL_succeeds sdl ->
     InitializeGraphics sdl w =
       Graphics_ready "Game of Life" 1000 1000
         [SDL_SetRenderDrawColor (gameColors w); SDL_RenderClear]) /\
  match InitializeGraphics sdl w with
  | Graphics_ready _ _ _ _ => SDL_succeeds sdl
  | Graphics_aborted e =>
      ~ SDL_succeeds sdl /\ forall text status, e <> Abort_exit text status
  end.
Proof.
  assert (forall pre text status, Abort_va_arg pre <> Abort_exit text status)
    as Hno by discriminate.
  unfold InitializeGraphics, SDL_succeeds.
  destruct (Z.eqb_spec (SDL_Init_value sdl) 0) as [Hinit|Hinit]; cbn [negb].
  2:{ change (Abort "Cannot initialize SDL2: {}")
        with (Abort_va_arg "Cannot initialize SDL2: ").
      split_and!; [reflexivity|tauto|tauto|tauto|tauto|].
      apply Hno. }
  destruct (SDL_CreateWindow_some sdl); cbn [negb].
  2:{ change (Abort "[-] Cannot create window: {}")
        with (Abort_va_arg "[-] Cannot create window: ").
      split_and!; [tauto|reflexivity|discriminate| | |].
      - by intros (_ & [=] & _).
      - by intros (_ & [=] & _).
      - apply Hno. }
  destruct (SDL_CreateRenderer_some sdl); cbn [negb].
  2:{ change (Abort "[-] Cannot create renderer: {}")
        with (Abort_va_arg "[-] Cannot create renderer: ").
      split_and!; [tauto|discriminate|reflexivity| | |].
      - by intros (_ & _ & [=]).
      - by intros (_ & _ & [=]).
      - apply Hno. }
  split_and!; [tauto|discriminate|discriminate|reflexivity|done..].
Qed.
